(** * A shallow embedding of mbf-agent/src/patching.rs

    The downgrade engine (diff fetch, retry, integrity-checked patching), the
    OBB backup/restore manager and the APK mutation pipeline of the agent.
    Effects are modelled by a small state-and-error monad over a file system,
    a log and a scripted network. *)

From Stdlib Require Import String Ascii List ZArith Bool Lia.
Import ListNotations.
Open Scope string_scope.

(** ** Errors and logs *)

Inductive io_error_kind := NotFound | PermissionDenied | UnexpectedEof.

(** The errors an [anyhow::Result] carries in this file. *)
Inductive Error :=
| IoError (k : io_error_kind)
| NetError (msg : string)
(** [anyhow!("File CRC {} did not match expected value of {}. Is the file
    corrupt, or is the game pirated?", before_crc, diff.file_crc)] *)
| CrcMismatch (before_crc expected_crc : Z)
(** a patch payload rejected by [qbsdiff::Bspatch::new] or [apply] *)
| PatchError
| ZipError (msg : string)
| SerdeError
| Context (ctx : string) (inner : Error)
| Panic (msg : string).

Inductive log_entry :=
| LogInfo (msg : string)
| LogWarn (msg : string)
| LogError (msg : string) (err : Error).

(** ** The environment: file system, log and network *)

Definition bytes := list Byte.byte.

(** A response of the diff repository to one [get_diff_reader] request:
    a failure, or a body with an optional Content-Length. *)
Inductive response :=
| RespFail (msg : string)
| RespOk (length : option nat) (body : bytes).

Record St := mkSt {
  files : list (string * bytes);   (** regular files, in directory order *)
  dirs : list string;              (** existing directories *)
  undeletable : list string;       (** files whose removal is refused *)
  bad_entries : list string;       (** files whose [DirEntry] cannot be read *)
  logs : list log_entry;           (** the log, oldest first *)
  responses : list response;       (** the network's next answers *)
  requests : list string           (** diff names requested so far *)
}.

Inductive Result (A : Type) := Ok (a : A) | Err (e : Error).
Arguments Ok {A} a.
Arguments Err {A} e.

Definition M (A : Type) := St -> Result A * St.

Definition ret {A} (a : A) : M A := fun s => (Ok a, s).
Definition fail {A} (e : Error) : M A := fun s => (Err e, s).
Definition bind {A B} (m : M A) (f : A -> M B) : M B :=
  fun s => match m s with
           | (Ok a, s') => f a s'
           | (Err e, s') => (Err e, s')
           end.

Notation "x <- m ;; k" := (bind m (fun x => k))
  (at level 61, m at next level, right associativity).
Notation "m ;;; k" := (bind m (fun _ => k))
  (at level 61, right associativity).

(** [.context(ctx)] *)
Definition with_context {A} (ctx : string) (m : M A) : M A :=
  fun s => match m s with
           | (Err e, s') => (Err (Context ctx e), s')
           | r => r
           end.

(** [match m { Ok(a) => ok a, Err(e) => err e }] *)
Definition catch {A B} (m : M A) (ok : A -> M B) (err : Error -> M B) : M B :=
  fun s => match m s with
           | (Ok a, s') => ok a s'
           | (Err e, s') => err e s'
           end.

Definition log (l : log_entry) : M unit :=
  fun s => (Ok tt, mkSt (files s) (dirs s) (undeletable s) (bad_entries s)
                        (logs s ++ [l]) (responses s) (requests s)).

Definition set_files (fs : list (string * bytes)) : M unit :=
  fun s => (Ok tt, mkSt fs (dirs s) (undeletable s) (bad_entries s)
                        (logs s) (responses s) (requests s)).

Definition get : M St := fun s => (Ok s, s).

(** ** Paths *)

Fixpoint lookup (p : string) (fs : list (string * bytes)) : option bytes :=
  match fs with
  | [] => None
  | (q, b) :: fs' => if String.eqb p q then Some b else lookup p fs'
  end.

(** Writing a file keeps its place in the directory if it exists, and adds
    it at the end otherwise. *)
Fixpoint upsert (p : string) (b : bytes) (fs : list (string * bytes))
  : list (string * bytes) :=
  match fs with
  | [] => [(p, b)]
  | (q, c) :: fs' =>
      if String.eqb p q then (q, b) :: fs' else (q, c) :: upsert p b fs'
  end.

Fixpoint remove (p : string) (fs : list (string * bytes)) : list (string * bytes) :=
  match fs with
  | [] => []
  | (q, c) :: fs' => if String.eqb p q then fs' else (q, c) :: remove p fs'
  end.

(** The parts of a string before and after its last occurrence of [c]. *)
Fixpoint rsplit_once (c : ascii) (s : string) : option (string * string) :=
  match s with
  | EmptyString => None
  | String a s' =>
      match rsplit_once c s' with
      | Some (before, after) => Some (String a before, after)
      | None => if Ascii.eqb a c then Some (EmptyString, s') else None
      end
  end.

(** [Path::file_name]: the last component. *)
Definition file_name (p : string) : string :=
  match rsplit_once "/" p with Some (_, n) => n | None => p end.

(** [Path::parent], for the absolute paths of this file. *)
Definition parent (p : string) : string :=
  match rsplit_once "/" p with Some (d, _) => d | None => EmptyString end.

(** [Path::join] of a directory and a relative file name. *)
Definition join (dir name : string) : string := dir ++ "/" ++ name.

(** [Path::extension] (std's [rsplit_file_at_dot]): [None] for "..", for a
    name without a dot, and for a name whose only dot is its first
    character; otherwise the part after the last dot. *)
Definition extension (p : string) : option string :=
  let name := file_name p in
  if String.eqb name ".." then None else
  match rsplit_once "." name with
  | None => None
  | Some (before, after) => if String.eqb before "" then None else Some after
  end.

(** ** std::fs *)

Definition exists_dir (d : string) (s : St) : bool :=
  existsb (String.eqb d) (dirs s).

(** [File::open] followed by reading the whole file. *)
Definition read_file (p : string) : M bytes :=
  fun s => match lookup p (files s) with
           | Some b => (Ok b, s)
           | None => (Err (IoError NotFound), s)
           end.

(** [OpenOptions::new().create(true).truncate(true).write(true).open(p)]:
    the file exists and is empty afterwards. *)
Definition create_truncate (p : string) : M unit :=
  fun s => if exists_dir (parent p) s
           then set_files (upsert p [] (files s)) s
           else (Err (IoError NotFound), s).

Definition write_all (p : string) (b : bytes) : M unit :=
  fun s => set_files (upsert p b (files s)) s.

(** [std::fs::copy(from, to)] *)
Definition copy (from to : string) : M nat :=
  fun s => match lookup from (files s) with
           | None => (Err (IoError NotFound), s)
           | Some b =>
               if exists_dir (parent to) s
               then (Ok (List.length b), snd (set_files (upsert to b (files s)) s))
               else (Err (IoError NotFound), s)
           end.

(** [std::fs::remove_file(p)] *)
Definition remove_file (p : string) : M unit :=
  fun s => match lookup p (files s) with
           | None => (Err (IoError NotFound), s)
           | Some _ =>
               if existsb (String.eqb p) (undeletable s)
               then (Err (IoError PermissionDenied), s)
               else set_files (remove p (files s)) s
           end.

(** [std::fs::create_dir_all(d)] *)
Definition create_dir_all (d : string) : M unit :=
  fun s => (Ok tt, mkSt (files s) (if exists_dir d s then dirs s else dirs s ++ [d])
                        (undeletable s) (bad_entries s) (logs s) (responses s)
                        (requests s)).

(** [std::fs::read_dir(d)]: one entry per file of [d], in directory order;
    an entry whose metadata cannot be read is an [Err]. *)
Definition read_dir (d : string) : M (list (Result string)) :=
  fun s =>
    if exists_dir d s
    then (Ok (map (fun p => if existsb (String.eqb p) (bad_entries s)
                            then Err (IoError PermissionDenied) else Ok p)
                  (filter (fun p => String.eqb (parent p) d) (map fst (files s)))), s)
    else (Err (IoError NotFound), s).

(** ** CRC-32

    [ZIP_CRC.checksum]: the CRC-32 of ZIP (reflected polynomial 0xEDB88320,
    initial value and final xor 0xFFFFFFFF), computed bit by bit. *)

Fixpoint crc_shift (k : nat) (c : Z) : Z :=
  match k with
  | O => c
  | S k' => crc_shift k' (if Z.testbit c 0
                          then Z.lxor (Z.shiftr c 1) 0xEDB88320%Z
                          else Z.shiftr c 1)
  end.

Definition crc_update (c : Z) (b : Byte.byte) : Z :=
  crc_shift 8 (Z.lxor c (Z.of_nat (Byte.to_nat b))).

Definition crc32 (data : bytes) : Z :=
  Z.lxor (fold_left crc_update data 0xFFFFFFFF%Z) 0xFFFFFFFF%Z.

Definition bytes_of_string (s : string) : bytes :=
  map (fun a => Ascii.byte_of_ascii a) (list_ascii_of_string s).

(** ** read_file_vec *)

(** A [Vec<u8>]: its elements and its capacity. *)
Record Vec := mkVec { vec_data : bytes; vec_capacity : nat }.

Definition with_capacity (n : nat) : Vec := mkVec [] n.

(** [reader.read_exact(&mut buf)] where [buf] is the slice of the vector's
    elements: it fills [buf.len()] bytes, or fails when the reader has
    fewer. *)
Definition read_exact (src : bytes) (buf : Vec) : Result unit * Vec :=
  let n := List.length (vec_data buf) in
  if Nat.leb n (List.length src)
  then (Ok tt, mkVec (firstn n src) (vec_capacity buf))
  else (Err (IoError UnexpectedEof), buf).

(** [read_file_vec]: open the file, allocate a vector with the file's length
    as capacity, [read_exact] into it (result discarded) and return it. *)
Definition read_file_vec (path : string) : M bytes :=
  handle <- read_file path ;;
  let file_content := with_capacity (List.length handle) in
  let file_content := snd (read_exact handle file_content) in
  ret (vec_data file_content).

(** ** Diffs *)

(** [external_res::Diff], with the fields this file uses. *)
Record Diff := mkDiff {
  diff_name : string;
  file_name_of : string;  (** the field [file_name] *)
  file_crc : Z
}.

Record VersionDiffs := mkVersionDiffs {
  apk_diff : Diff;
  obb_diffs : list Diff
}.

Section ApplyDiff.

(** The binary patch format ([qbsdiff]): parsing a payload and applying a
    parsed patch to source bytes. *)
Variable Patch : Type.
Variable bspatch_new : bytes -> option Patch.
Variable bspatch_apply : Patch -> bytes -> option bytes.

Definition apply_diff (from_path to_path : string) (diff : Diff)
    (diffs_path : string) : M unit :=
  diff_content <- with_context "Diff could not be opened. Was it downloaded"
                    (read_file_vec (join diffs_path (file_name_of diff))) ;;
  patch <- with_context "Diff file was invalid"
             (match bspatch_new diff_content with
              | Some p => ret p
              | None => fail PatchError
              end) ;;
  file_content <- read_file_vec from_path ;;
  log (LogInfo "Verifying installation is unmodified") ;;;
  let before_crc := crc32 file_content in
  if negb (Z.eqb before_crc (file_crc diff))
  then fail (CrcMismatch before_crc (file_crc diff))
  else
    create_truncate to_path ;;;
    match bspatch_apply patch file_content with
    | Some out => write_all to_path out
    | None => fail PatchError
    end ;;;
    ret tt.

End ApplyDiff.

(** ** Fetching diffs *)

(** [external_res::get_diff_reader]: one request to the diff repository. *)
Definition get_diff_reader (diff : Diff) : M (option nat * bytes) :=
  fun s =>
    let s1 := mkSt (files s) (dirs s) (undeletable s) (bad_entries s) (logs s)
                   (tl (responses s)) (requests s ++ [diff_name diff]) in
    match responses s with
    | RespOk len body :: _ => (Ok (len, body), s1)
    | RespFail msg :: _ => (Err (NetError msg), s1)
    | [] => (Err (NetError "connection refused"), s1)
    end.

(** [download_diff].  The progress messages of [copy_stream_progress] depend
    on wall-clock time and are not modelled: both branches copy the body. *)
Definition download_diff (diff : Diff) (to_dir : string) : M unit :=
  let out := join to_dir (diff_name diff) in
  create_truncate out ;;;
  r <- get_diff_reader diff ;;
  match fst r with
  | Some _ => write_all out (snd r)
  | None =>
      log (LogWarn "Diff repository returned no Content-Length, so cannot show download progress") ;;;
      write_all out (snd r)
  end ;;;
  ret tt.

Definition DIFF_DOWNLOAD_ATTEMPTS : nat := 3.

(** [error!("Failed to download {}: {err}\nTrying again...", diff.diff_name)] *)
Definition retry_msg (diff : Diff) : string :=
  "Failed to download " ++ diff_name diff ++ ": Trying again...".

(** The [loop] of [download_diff_retry], from attempt number [attempt];
    [fuel] bounds the iterations (the loop leaves at the latest when
    [attempt] reaches [DIFF_DOWNLOAD_ATTEMPTS]). *)
Fixpoint retry_loop (diff : Diff) (to_dir : string) (fuel attempt : nat) : M unit :=
  match fuel with
  | O => fail (Panic "attempt limit passed")
  | S fuel' =>
      catch (download_diff diff to_dir)
        (fun _ => ret tt)
        (fun err =>
           if Nat.eqb attempt DIFF_DOWNLOAD_ATTEMPTS
           then fail err
           else log (LogError (retry_msg diff) err) ;;;
                retry_loop diff to_dir fuel' (S attempt))
  end.

Definition download_diff_retry (diff : Diff) (to_dir : string) : M unit :=
  retry_loop diff to_dir DIFF_DOWNLOAD_ATTEMPTS 1.

Fixpoint for_each_diff (ds : list Diff) (body : Diff -> M unit) : M unit :=
  match ds with
  | [] => ret tt
  | d :: ds' => body d ;;; for_each_diff ds' body
  end.

Definition obb_msg (d : Diff) : string :=
  "Downloading diff for OBB (this may take a long time) " ++ file_name_of d.

Definition apk_msg : string := "Downloading diff for APK (this may take a long time)".

Definition download_diffs (to_path : string) (version_diffs : VersionDiffs) : M unit :=
  for_each_diff (obb_diffs version_diffs)
    (fun diff => log (LogInfo (obb_msg diff)) ;;; download_diff_retry diff to_path) ;;;
  log (LogInfo apk_msg) ;;;
  download_diff_retry (apk_diff version_diffs) to_path ;;;
  ret tt.

(** ** OBB backup and restore *)

Definition is_obb (path : string) : bool :=
  match extension path with
  | Some ext => String.eqb ext "obb"
  | None => false
  end.

(** The [for] loop of [save_obbs] over the directory entries, with the
    vector [paths] built so far. *)
Fixpoint save_obbs_loop (obb_backup_path : string) (entries : list (Result string))
    (paths : list string) : M (list string) :=
  match entries with
  | [] => ret paths
  | Err _ :: entries' => save_obbs_loop obb_backup_path entries' paths
  | Ok path :: entries' =>
      if is_obb path
      then copy path (join obb_backup_path (file_name path)) ;;;
           remove_file path ;;;
           save_obbs_loop obb_backup_path entries' (paths ++ [path])
      else save_obbs_loop obb_backup_path entries' paths
  end.

Definition save_obbs (obb_dir obb_backup_path : string) : M (list string) :=
  entries <- read_dir obb_dir ;;
  save_obbs_loop obb_backup_path entries [].

(** A statement whose [Result] is dropped ([std::fs::remove_file(p);]). *)
Definition discard {A} (m : M A) : M unit :=
  catch m (fun _ => ret tt) (fun _ => ret tt).

Fixpoint restore_obb_loop (restore_dir : string) (obb_backups : list string) : M unit :=
  match obb_backups with
  | [] => ret tt
  | backup_path :: rest =>
      log (LogInfo ("Restoring " ++ backup_path)) ;;;
      copy backup_path (join restore_dir (file_name backup_path)) ;;;
      discard (remove_file backup_path) ;;;
      restore_obb_loop restore_dir rest
  end.

Definition restore_obb_files (restore_dir : string) (obb_backups : list string) : M unit :=
  create_dir_all restore_dir ;;;
  restore_obb_loop restore_dir obb_backups ;;;
  ret tt.

(** ** The APK container *)

(** Modelled from the spec: the ZIP container codec ([crate::zip], §6 of the
    spec), which is not part of the sources.  A container is its list of
    entries in order; [delete_entry] drops the entries of that name and
    [write_entry] overwrites them. *)
Record ZipFile := mkZip { zentries : list (string * bytes) }.

Definition zip_contains (z : ZipFile) (name : string) : bool :=
  existsb (String.eqb name) (map fst (zentries z)).

Definition zip_read (z : ZipFile) (name : string) : M bytes :=
  match lookup name (zentries z) with
  | Some b => ret b
  | None => fail (ZipError "No such file")
  end.

Definition zip_delete (z : ZipFile) (name : string) : ZipFile :=
  mkZip (filter (fun e => negb (String.eqb (fst e) name)) (zentries z)).

Definition zip_write (z : ZipFile) (name : string) (data : bytes) : ZipFile :=
  mkZip (zentries (zip_delete z name) ++ [(name, data)]).

Definition zip_entry_names (z : ZipFile) : list string := map fst (zentries z).

(** [crate::ModTag] *)
Record ModTag := mkModTag {
  patcher_name : string;
  patcher_version : option string;
  modloader_name : string;
  modloader_version : option string
}.

(** [crate::requests::ModLoader] *)
Inductive ModLoader := QuestLoader | Scotland2 | Unknown.

Definition MOD_TAG_PATH : string := "modded.json".
Definition LIB_MAIN_PATH : string := "lib/arm64-v8a/libmain.so".
Definition LIB_UNITY_PATH : string := "lib/arm64-v8a/libunity.so".

(** [u8::to_ascii_lowercase] *)
Definition ascii_lower (c : ascii) : ascii :=
  let n := nat_of_ascii c in
  if andb (Nat.leb 65 n) (Nat.leb n 90) then ascii_of_nat (n + 32) else c.

(** [str::eq_ignore_ascii_case] *)
Fixpoint eq_ignore_ascii_case (a b : string) : bool :=
  match a, b with
  | EmptyString, EmptyString => true
  | String x a', String y b' =>
      Ascii.eqb (ascii_lower x) (ascii_lower y) && eq_ignore_ascii_case a' b'
  | _, _ => false
  end.

Fixpoint starts_with (pat s : string) : bool :=
  match pat, s with
  | EmptyString, _ => true
  | String p pat', String c s' => Ascii.eqb p c && starts_with pat' s'
  | String _ _, EmptyString => false
  end.

(** [str::contains] with a string pattern. *)
Fixpoint contains (s pat : string) : bool :=
  starts_with pat s ||
  match s with
  | EmptyString => false
  | String _ s' => contains s' pat
  end.

Section Apk.

(** [serde_json::to_vec_pretty] and [serde_json::from_slice] for [ModTag]. *)
Variable modtag_to_json : ModTag -> bytes.
Variable modtag_from_json : bytes -> option ModTag.

(** [zip::ZipFile::open] on the bytes of the file. *)
Variable zip_parse : bytes -> option ZipFile.

(** The manifest rewrite of [patch_manifest]: [AxmlReader::new],
    [ResourceIds::load], [ManifestMod::apply_mod] with the intents
    debuggable and MANAGE_EXTERNAL_STORAGE, and [AxmlWriter::finish]. *)
Variable manifest_mod : bytes -> Result bytes.

(** [signing::load_cert_and_priv_key] and [ZipFile::save_and_sign_v2]. *)
Variables Cert Key : Type.
Variable load_cert_and_priv_key : bytes -> Key * Cert.
Variable save_and_sign_v2 : ZipFile -> Cert -> Key -> bytes.

(** The bundled [debug_cert.pem] and [libmain.so]. *)
Variable DEBUG_CERT_PEM : bytes.
Variable LIB_MAIN : bytes.

Definition lift {A} (r : Result A) : M A :=
  match r with Ok a => ret a | Err e => fail e end.

Definition patch_manifest (z : ZipFile) : M ZipFile :=
  contents <- with_context "APK had no manifest" (zip_read z "AndroidManifest.xml") ;;
  data_output <- lift (manifest_mod contents) ;;
  let z := zip_delete z "AndroidManifest.xml" in
  with_context "Failed to write modified manifest"
    (ret (zip_write z "AndroidManifest.xml" data_output)).

Definition add_modded_tag (z : ZipFile) (tag : ModTag) : M ZipFile :=
  let saved_tag := modtag_to_json tag in
  ret (zip_write z MOD_TAG_PATH saved_tag).

Definition mbf_tag : ModTag :=
  mkModTag "ModsBeforeFriday" (Some "0.1.0") "Scotland2" None.

Definition patch_apk_in_place (path : string) (libunity_path : option string) : M unit :=
  file <- catch (read_file path) ret (fun _ => fail (Panic "Failed to open APK")) ;;
  z <- match zip_parse file with
       | Some z => ret z
       | None => fail (Panic "called `Result::unwrap()` on an `Err` value")
       end ;;
  z <- with_context "Failed to patch manifest" (patch_manifest z) ;;
  let keys := load_cert_and_priv_key DEBUG_CERT_PEM in
  let priv_key := fst keys in
  let cert := snd keys in
  let z := zip_delete z LIB_MAIN_PATH in
  let z := zip_write z LIB_MAIN_PATH LIB_MAIN in
  z <- add_modded_tag z mbf_tag ;;
  z <- match libunity_path with
       | Some unity_path =>
           unity_stream <- read_file unity_path ;;
           ret (zip_write z LIB_UNITY_PATH unity_stream)
       | None =>
           log (LogWarn "No unstripped unity added to the APK! This might cause issues later") ;;;
           ret z
       end ;;
  with_context "Failed to save APK" (write_all path (save_and_sign_v2 z cert priv_key)) ;;;
  ret tt.

Definition get_modloader_installed (apk : ZipFile) : M (option ModLoader) :=
  if zip_contains apk MOD_TAG_PATH then
    tag_data <- with_context "Failed to read mod tag" (zip_read apk MOD_TAG_PATH) ;;
    match modtag_from_json tag_data with
    | None =>
        log (LogWarn "Mod tag was invalid JSON... Assuming unknown modloader") ;;;
        ret (Some Unknown)
    | Some mod_tag =>
        ret (Some (if eq_ignore_ascii_case (modloader_name mod_tag) "QuestLoader"
                   then QuestLoader
                   else if eq_ignore_ascii_case (modloader_name mod_tag) "Scotland2"
                   then Scotland2
                   else Unknown))
    end
  else if existsb (fun entry => contains entry "modded") (zip_entry_names apk)
  then ret (Some Unknown)
  else ret None.

End Apk.

(** ** The agent's other operations *)


(** [Path::exists]: a file or a directory. *)
Definition path_exists (p : string) (s : St) : bool :=
  match lookup p (files s) with Some _ => true | None => exists_dir p s end.

(** [crate::requests::AppInfo], with the fields this file uses. *)
Record AppInfo := mkAppInfo { app_path : string; app_version : string }.


Section Agent.

(** [crate::APK_ID], [crate::TEMP_PATH], [crate::APP_OBB_PATH] and
    [crate::APP_DATA_PATH], and the bundled [libsl2.so]. *)
Variable APK_ID TEMP_PATH APP_OBB_PATH APP_DATA_PATH : string.
Variable MODLOADER : bytes.

(** [Command::new(program).args(args).output()]: an [Err] when the process
    cannot be started, otherwise its exit code; running it may change the
    file system. *)
Variable command_output : string -> list string -> M nat.

(** [external_res::get_libunity_stream(APK_ID, version)]: the unstripped
    libunity for that version, if the repository has one. *)
Variable get_libunity_stream : string -> string -> M (option bytes).

(** The collaborators of [patch_apk_in_place]. *)
Variable modtag_to_json : ModTag -> bytes.
Variable zip_parse : bytes -> option ZipFile.
Variable manifest_mod : bytes -> Result bytes.
Variables Cert Key : Type.
Variable load_cert_and_priv_key : bytes -> Key * Cert.
Variable save_and_sign_v2 : ZipFile -> Cert -> Key -> bytes.
Variable DEBUG_CERT_PEM LIB_MAIN : bytes.



Definition reinstall_modded_app (temp_apk_path : string) : M unit :=
  log (LogInfo "Reinstalling modded app") ;;;
  with_context "Failed to uninstall vanilla APK"
    (command_output "pm" ["uninstall"; APK_ID]) ;;;
  with_context "Failed to install modded APK"
    (command_output "pm" ["install"; temp_apk_path]) ;;;
  log (LogInfo "Granting external storage permission") ;;;
  command_output "appops" ["set"; "--uid"; APK_ID; "MANAGE_EXTERNAL_STORAGE"; "allow"] ;;;
  ret tt.

(** [save_libunity]; the stream is given by its bytes. *)
Definition save_libunity (temp_path : string) (app_info : AppInfo) : M (option string) :=
  stream <- get_libunity_stream APK_ID (app_version app_info) ;;
  match stream with
  | None => ret None
  | Some libunity_stream =>
      let libunity_path := join temp_path "libunity.so" in
      create_truncate libunity_path ;;;
      write_all libunity_path libunity_stream ;;;
      ret (Some libunity_path)
  end.

Definition mod_current_apk (app_info : AppInfo) : M unit :=
  create_dir_all TEMP_PATH ;;;
  log (LogInfo "Downloading unstripped libunity.so (this could take a minute)") ;;;
  libunity_path <- with_context "Failed to save libunity.so" (save_libunity TEMP_PATH app_info) ;;
  log (LogInfo "Copying APK to temporary location") ;;;
  let temp_apk_path := join TEMP_PATH "mbf-tmp.apk" in
  with_context "Failed to copy APK to temp" (copy (app_path app_info) temp_apk_path) ;;;
  log (LogInfo "Saving OBB files") ;;;
  let obb_backup := join TEMP_PATH "obbs" in
  obb_backups <- save_obbs APP_OBB_PATH obb_backup ;;
  let player_data_backup := join TEMP_PATH "PlayerData.backup" in
  let player_data_path := join APP_DATA_PATH "PlayerData.dat" in
  backed_up_data <- (fun s =>
    if path_exists player_data_path s
    then (log (LogInfo "Backing up player data") ;;;
          copy player_data_path player_data_backup ;;;
          ret true) s
    else (log (LogInfo "No player data to save") ;;; ret false) s) ;;
  log (LogInfo ("Patching APK at " ++ TEMP_PATH)) ;;;
  patch_apk_in_place modtag_to_json zip_parse manifest_mod Cert Key
    load_cert_and_priv_key save_and_sign_v2 DEBUG_CERT_PEM LIB_MAIN
    temp_apk_path libunity_path ;;;
  reinstall_modded_app temp_apk_path ;;;
  log (LogInfo "Restoring OBB files") ;;;
  restore_obb_files APP_OBB_PATH obb_backups ;;;
  remove_file temp_apk_path ;;;
  (if backed_up_data
   then log (LogInfo "Restoring player data") ;;;
        create_dir_all APP_DATA_PATH ;;;
        copy player_data_backup player_data_path ;;;
        ret tt
   else ret tt) ;;;
  ret tt.

End Agent.

(** ** A serialization of [ModTag]

    A concrete codec for [ModTag] satisfying the round trip that
    [serde_json] gives, to run the pipeline on concrete inputs: each string
    is its characters, each prefixed by 1, then 0; an option is 0, or 1
    followed by its value. *)

Fixpoint enc_str (s : string) : bytes :=
  match s with
  | EmptyString => [Byte.x00]
  | String c s' => Byte.x01 :: Ascii.byte_of_ascii c :: enc_str s'
  end.

Fixpoint dec_str (b : bytes) : option (string * bytes) :=
  match b with
  | Byte.x00 :: rest => Some (EmptyString, rest)
  | Byte.x01 :: c :: rest =>
      match dec_str rest with
      | Some (s, r) => Some (String (Ascii.ascii_of_byte c) s, r)
      | None => None
      end
  | _ => None
  end.

Definition enc_opt (o : option string) : bytes :=
  match o with None => [Byte.x00] | Some s => Byte.x01 :: enc_str s end.

Definition dec_opt (b : bytes) : option (option string * bytes) :=
  match b with
  | Byte.x00 :: rest => Some (None, rest)
  | Byte.x01 :: rest =>
      match dec_str rest with Some (s, r) => Some (Some s, r) | None => None end
  | _ => None
  end.

Definition enc_tag (t : ModTag) : bytes :=
  (enc_str (patcher_name t) ++ enc_opt (patcher_version t)
   ++ enc_str (modloader_name t) ++ enc_opt (modloader_version t))%list.

Definition dec_tag (b : bytes) : option ModTag :=
  match dec_str b with
  | Some (pn, r1) =>
      match dec_opt r1 with
      | Some (pv, r2) =>
          match dec_str r2 with
          | Some (mn, r3) =>
              match dec_opt r3 with
              | Some (mv, []) => Some (mkModTag pn pv mn mv)
              | _ => None
              end
          | None => None
          end
      | None => None
      end
  | None => None
  end.







(** ** Reading the download orchestration *)

(** The jobs of [download_diffs]: its log message and diff, OBB diffs first
    in the order of the set, then the APK diff. *)
Definition download_jobs (version_diffs : VersionDiffs) : list (string * Diff) :=
  map (fun d => (obb_msg d, d)) (obb_diffs version_diffs)
  ++ [(apk_msg, apk_diff version_diffs)].

(** [runs_in_order to jobs s r s']: running the fetches (with retry) of
    [jobs] one after the other from [s], stopping at the first failure,
    ends in result [r] and state [s']. *)
Inductive runs_in_order (to : string)
  : list (string * Diff) -> St -> Result unit -> St -> Prop :=
| rio_nil s : runs_in_order to [] s (Ok tt) s
| rio_ok msg d jobs s s1 r s2 :
    (log (LogInfo msg) ;;; download_diff_retry d to) s = (Ok tt, s1) ->
    runs_in_order to jobs s1 r s2 ->
    runs_in_order to ((msg, d) :: jobs) s r s2
| rio_err msg d jobs s e s1 :
    (log (LogInfo msg) ;;; download_diff_retry d to) s = (Err e, s1) ->
    runs_in_order to ((msg, d) :: jobs) s (Err e) s1.

(** [info_only_action m]: running [m] adds nothing but informational
    messages to the log. *)
Definition info_only_action {A} (m : M A) : Prop :=
  forall s r s', m s = (r, s') ->
  forall l, In l (logs s') -> In l (logs s) \/ exists msg, l = LogInfo msg.

(** ** Concrete scenarios *)

(** The state used to run the patch applier: a source APK holding the
    single byte "a", a 32-byte patch payload and an output directory. *)
Definition apply_state (payload : bytes) : St :=
  mkSt [("/apk/base.apk", bytes_of_string "a"); ("/diffs/base.apk.diff", payload)]
       ["/apk"; "/diffs"; "/out"] [] [] [] [] [].

Definition sample_payload : bytes := repeat Byte.x00 32.

Definition split_diff : Diff := mkDiff "main.obb.diff" "main.obb" 0.

Definition fetch_state : St :=
  mkSt [("/obb/main.obb", bytes_of_string "a")] ["/diffs"; "/obb"] [] [] []
       [RespOk (Some 32) sample_payload] [].

Definition retry_state (rs : list response) : St :=
  mkSt [] ["/diffs"] [] [] [] rs [].

Definition obb_data : bytes := bytes_of_string "obb-data".

(** An OBB directory holding one OBB file and one extension-less DLC file,
    and an existing backup directory. *)
Definition obb_state : St :=
  mkSt [("/obb/main.obb", obb_data); ("/obb/dlc", bytes_of_string "dlc")]
       ["/obb"; "/bak"] [] [] [] [] [].

Definition restore_state : St :=
  mkSt [("/bak/main.obb", obb_data)] ["/bak"] ["/bak/main.obb"] [] [] [] [].

Definition tmp_apk : string := "/data/local/tmp/mbf/mbf-tmp.apk".

(** A package with a manifest and a dex file. *)
Definition sample_apk_zip : ZipFile :=
  mkZip [("AndroidManifest.xml", bytes_of_string "manifest");
         ("classes.dex", bytes_of_string "dex")].

Definition sample_apk_state : St :=
  mkSt [(tmp_apk, bytes_of_string "apk")] ["/data/local/tmp/mbf"] [] [] [] [] [].

(** A stand-in for the signed archive: the entries' contents in order. *)
Definition sample_sign (z : ZipFile) (_ _ : unit) : bytes :=
  flat_map snd (zentries z).

Definition sample_patch_apk : M unit :=
  patch_apk_in_place enc_tag (fun _ => Some sample_apk_zip) (fun b => Ok b) unit unit
    (fun _ => (tt, tt)) sample_sign (bytes_of_string "pem") (bytes_of_string "libmain")
    tmp_apk None.

Definition questloader_tag : ModTag := mkModTag "QuestPatcher" None "questloader" None.

Definition questloader_zip : ZipFile :=
  mkZip [("AndroidManifest.xml", bytes_of_string "manifest");
         (MOD_TAG_PATH, enc_tag questloader_tag)].

Definition broken_tag_zip : ZipFile :=
  mkZip [("AndroidManifest.xml", bytes_of_string "manifest");
         (MOD_TAG_PATH, bytes_of_string "{")].

Definition empty_state : St := mkSt [] [] [] [] [] [] [].

(** An OBB directory with one OBB file and no backup directory. *)
Definition obb_nobak_state : St :=
  mkSt [("/obb/main.obb", obb_data)] ["/obb"] [] [] [] [] [].


(** An installed app with its package and one OBB file. *)
Definition mod_app : AppInfo := mkAppInfo "/data/app/base.apk" "1.0".

Definition mod_state : St :=
  mkSt [("/data/app/base.apk", bytes_of_string "apk"); ("/obb/main.obb", obb_data)]
       ["/data/app"; "/obb"] [] [] [] [] [].

Definition libunity_state : St := mkSt [] ["/data/local/tmp/mbf"] [] [] [] [] [].

(** The paths of the readable entries of a directory listing. *)
Fixpoint ok_entries (es : list (Result string)) : list string :=
  match es with
  | [] => []
  | Ok p :: es' => p :: ok_entries es'
  | Err _ :: es' => ok_entries es'
  end.

(** * Properties *)

(** ** Reading files into memory *)

(** [read_file_vec] returns an empty vector for every file it can open:
    the vector is created with [with_capacity], so its length is 0 and
    [read_exact] fills an empty slice. *)
Lemma read_file_vec_empty (p : string) (s : St) (b : bytes) :
  lookup p (files s) = Some b -> read_file_vec p s = (Ok [], s).
Proof.
  intros Hp. unfold read_file_vec, bind, read_file. rewrite Hp.
  unfold read_exact, with_capacity. simpl. reflexivity.
Qed.

Lemma crc32_a : crc32 (bytes_of_string "a") = 3904355907%Z.
Proof. vm_compute. reflexivity. Qed.

Lemma crc32_empty : crc32 [] = 0%Z.
Proof. vm_compute. reflexivity. Qed.

(** C1 (code_bug).  A source file whose real CRC-32 equals [diff.file_crc]
    is not patched: whatever the patch format does with the payload,
    [apply_diff] fails and writes no output, because both the payload and
    the source are read as empty vectors. *)
Theorem apply_diff_fails_on_matching_source :
  forall (Patch : Type) (bspatch_new : bytes -> option Patch)
         (bspatch_apply : Patch -> bytes -> option bytes),
  let diff := mkDiff "base.apk.diff" "base.apk.diff" (crc32 (bytes_of_string "a")) in
  exists e s',
    apply_diff Patch bspatch_new bspatch_apply "/apk/base.apk" "/out/base.apk"
      diff "/diffs" (apply_state sample_payload) = (Err e, s') /\
    lookup "/out/base.apk" (files s') = None.
Proof.
  intros Patch bnew bapply diff. subst diff.
  unfold apply_diff, bind, with_context.
  rewrite (read_file_vec_empty _ _ sample_payload) by reflexivity.
  destruct (bnew []) as [p|] eqn:Hp.
  - unfold ret. rewrite (read_file_vec_empty _ _ (bytes_of_string "a")) by reflexivity.
    vm_compute. eexists _, _. split; [reflexivity | reflexivity].
  - vm_compute. eexists _, _. split; [reflexivity | reflexivity].
Qed.

(** An integrity error of [apply_diff] leaves every file as it was. *)
Lemma apply_diff_crc_mismatch_no_write :
  forall Patch bnew bapply from to diff dp s s' a b,
  apply_diff Patch bnew bapply from to diff dp s = (Err (CrcMismatch a b), s') ->
  files s' = files s.
Proof.
  intros Patch bnew bapply from to diff dp s s' a b H.
  unfold apply_diff, bind, with_context, read_file_vec, bind, read_file in H.
  destruct (lookup (join dp (file_name_of diff)) (files s)) eqn:H1;
    [|discriminate H].
  simpl in H. destruct (bnew []) as [p|]; [|discriminate H].
  unfold ret in H. destruct (lookup from (files s)); [|discriminate H].
  unfold log in H.
  destruct (negb (crc32 [] =? file_crc diff)%Z).
  - unfold fail in H. inversion H. reflexivity.
  - unfold create_truncate in H. cbn [fst snd dirs files] in H.
    destruct (exists_dir (parent to) _); [|discriminate H].
    unfold set_files in H.
    destruct (bapply p []); unfold write_all, set_files, ret in H;
      discriminate H.
Qed.

(** C2 (code_bug).  The source file holding "a" has CRC-32 0xE8B7BE43,
    which differs from an expected checksum of 0; still [apply_diff] never
    reports a checksum mismatch there, whatever the patch format does: the
    source is read as an empty vector, whose CRC-32 is 0. *)
Theorem apply_diff_no_integrity_error_on_mismatch :
  forall (Patch : Type) (bspatch_new : bytes -> option Patch)
         (bspatch_apply : Patch -> bytes -> option bytes),
  let diff := mkDiff "base.apk.diff" "base.apk.diff" 0 in
  crc32 (bytes_of_string "a") <> file_crc diff /\
  match fst (apply_diff Patch bspatch_new bspatch_apply "/apk/base.apk"
               "/out/base.apk" diff "/diffs" (apply_state sample_payload)) with
  | Err (CrcMismatch _ _) => False
  | _ => True
  end.
Proof.
  intros Patch bnew bapply diff. subst diff. split.
  - rewrite crc32_a. simpl. discriminate.
  - unfold apply_diff, bind, with_context.
    rewrite (read_file_vec_empty _ _ sample_payload) by reflexivity.
    destruct (bnew []) as [p|] eqn:Hp.
    + unfold ret. rewrite (read_file_vec_empty _ _ (bytes_of_string "a")) by reflexivity.
      vm_compute. destruct (bapply p []); exact I.
    + vm_compute. exact I.
Qed.

(** ** Where a downloaded diff is stored *)

(** C6 (code_bug).  [download_diff] stores the payload under [diff_name],
    [apply_diff] loads it from [file_name]: for a diff whose two names
    differ, a successful download is followed by a missing-payload error. *)
Theorem download_then_apply_misses_payload :
  forall (Patch : Type) (bspatch_new : bytes -> option Patch)
         (bspatch_apply : Patch -> bytes -> option bytes),
  exists s1,
    download_diff split_diff "/diffs" fetch_state = (Ok tt, s1) /\
    lookup (join "/diffs" (diff_name split_diff)) (files s1) = Some sample_payload /\
    fst (apply_diff Patch bspatch_new bspatch_apply "/obb/main.obb"
           "/obb/main.obb.new" split_diff "/diffs" s1)
    = Err (Context "Diff could not be opened. Was it downloaded" (IoError NotFound)).
Proof.
  intros Patch bnew bapply.
  exists (snd (download_diff split_diff "/diffs" fetch_state)).
  split; [vm_compute; reflexivity|].
  split; vm_compute; reflexivity.
Qed.

(** ** Retrying a download *)

(** C5.  [download_diff_retry] is three attempts at most: the first success
    ends it, each of the first two failures is logged and followed by a new
    attempt, and the failure of the third attempt is returned unchanged. *)
Theorem download_diff_retry_unrolled (diff : Diff) (to : string) (s : St) :
  download_diff_retry diff to s =
  catch (download_diff diff to) (fun _ => ret tt) (fun e1 =>
    log (LogError (retry_msg diff) e1) ;;;
    catch (download_diff diff to) (fun _ => ret tt) (fun e2 =>
      log (LogError (retry_msg diff) e2) ;;;
      catch (download_diff diff to) (fun _ => ret tt) (fun e3 => fail e3))) s.
Proof. reflexivity. Qed.

(** Two failures then a success: success after three requests, the fourth
    response is left unused, and the two failures are logged. *)
Example retry_third_attempt_succeeds :
  download_diff_retry split_diff "/diffs"
    (retry_state [RespFail "e1"; RespFail "e2"; RespOk None sample_payload;
                  RespOk None []])
  = (Ok tt,
     mkSt [("/diffs/main.obb.diff", sample_payload)] ["/diffs"] [] []
          [LogError (retry_msg split_diff) (NetError "e1");
           LogError (retry_msg split_diff) (NetError "e2");
           LogWarn "Diff repository returned no Content-Length, so cannot show download progress"]
          [RespOk None []]
          ["main.obb.diff"; "main.obb.diff"; "main.obb.diff"]).
Proof. vm_compute. reflexivity. Qed.

(** Three failures: the third error is returned. *)
Example retry_all_attempts_fail :
  fst (download_diff_retry split_diff "/diffs"
         (retry_state [RespFail "e1"; RespFail "e2"; RespFail "e3"; RespOk None []]))
  = Err (NetError "e3").
Proof. vm_compute. reflexivity. Qed.

(** ** Fetching all the diffs of a downgrade *)

Lemma bind_ok {A B} (m : M A) (f : A -> M B) s a s1 :
  m s = (Ok a, s1) -> bind m f s = f a s1.
Proof. intros H. unfold bind. rewrite H. reflexivity. Qed.

Lemma bind_err {A B} (m : M A) (f : A -> M B) s e s1 :
  m s = (Err e, s1) -> bind m f s = (Err e, s1).
Proof. intros H. unfold bind. rewrite H. reflexivity. Qed.

Lemma bind_assoc {A B C} (m : M A) (f : A -> M B) (g : B -> M C) s :
  bind (bind m f) g s = bind m (fun x => bind (f x) g) s.
Proof. unfold bind. destruct (m s) as [[a|e] s1]; reflexivity. Qed.

Lemma for_each_runs_in_order (to : string) (rest : list (string * Diff))
    (K : M unit) (ds : list Diff) :
  (forall s r s', K s = (r, s') -> runs_in_order to rest s r s') ->
  forall s r s',
  (for_each_diff ds
     (fun diff => log (LogInfo (obb_msg diff)) ;;; download_diff_retry diff to)
   ;;; K) s = (r, s') ->
  runs_in_order to (map (fun d => (obb_msg d, d)) ds ++ rest) s r s'.
Proof.
  intros HK. induction ds as [|d ds IH]; intros s r s' Hrun.
  - apply HK. exact Hrun.
  - cbn [map app for_each_diff] in *. rewrite bind_assoc in Hrun.
    destruct ((log (LogInfo (obb_msg d)) ;;; download_diff_retry d to) s)
      as [[u|e] s1] eqn:E.
    + destruct u. rewrite (bind_ok _ _ _ _ _ E) in Hrun.
      eapply rio_ok; [exact E|]. apply IH. exact Hrun.
    + rewrite (bind_err _ _ _ _ _ E) in Hrun. injection Hrun as <- <-.
      eapply rio_err. exact E.
Qed.

(** C8.  [download_diffs] fetches (with retry) the OBB diffs in the order of
    the set and then the APK diff; the first failure ends the run with that
    failure, in the state the failed fetch left (nothing is cleaned up). *)
Theorem download_diffs_in_order (to : string) (version_diffs : VersionDiffs) (s : St) :
  runs_in_order to (download_jobs version_diffs) s
    (fst (download_diffs to version_diffs s)) (snd (download_diffs to version_diffs s)).
Proof.
  unfold download_jobs, download_diffs.
  eapply for_each_runs_in_order; cycle 1; [apply surjective_pairing|].
  intros s0 r s1 HK.
  destruct ((log (LogInfo apk_msg) ;;; download_diff_retry (apk_diff version_diffs) to) s0)
    as [[u|e] s2] eqn:E.
  - destruct u. rewrite <- bind_assoc in HK. rewrite (bind_ok _ _ _ _ _ E) in HK.
    injection HK as <- <-. eapply rio_ok; [exact E | apply rio_nil].
  - rewrite <- bind_assoc in HK. rewrite (bind_err _ _ _ _ _ E) in HK.
    injection HK as <- <-. apply rio_err. exact E.
Qed.

(** ** OBB backup and restore *)

(** C7 (code_bug).  Backup then restore is not a round trip: [save_obbs]
    moves the OBB to the backup directory and returns its original path,
    which [restore_obb_files] then uses as the file to copy from; that file
    was deleted by the backup, so the restore fails and the OBB is not back
    at its original path. *)
Theorem obb_backup_restore_fails :
  let run := (paths <- save_obbs "/obb" "/bak" ;; restore_obb_files "/obb" paths) obb_state in
  fst (save_obbs "/obb" "/bak" obb_state) = Ok ["/obb/main.obb"] /\
  fst run = Err (IoError NotFound) /\
  lookup "/obb/main.obb" (files (snd run)) = None /\
  lookup "/bak/main.obb" (files (snd run)) = Some obb_data /\
  lookup "/obb/dlc" (files (snd run)) = Some (bytes_of_string "dlc").
Proof. vm_compute. repeat split. Qed.

(** C9 (code_bug).  When the backup copy cannot be deleted after it has
    been copied back, [restore_obb_files] succeeds and the log holds only
    the "Restoring" message: the failed deletion is not logged. *)
Theorem restore_obb_delete_failure_not_logged :
  restore_obb_files "/obb" ["/bak/main.obb"] restore_state =
  (Ok tt,
   mkSt [("/bak/main.obb", obb_data); ("/obb/main.obb", obb_data)]
        ["/bak"; "/obb"] ["/bak/main.obb"] []
        [LogInfo "Restoring /bak/main.obb"] [] []).
Proof. vm_compute. reflexivity. Qed.

(** More generally, [restore_obb_files] adds nothing but informational
    messages to the log, whatever fails. *)
Lemma bind_info_only {A B} (m : M A) (f : A -> M B) :
  info_only_action m -> (forall a, info_only_action (f a)) ->
  info_only_action (bind m f).
Proof.
  intros Hm Hf s r s' H l Hl. unfold bind in H.
  destruct (m s) as [[a|e] s1] eqn:E.
  - destruct (Hf a _ _ _ H l Hl) as [Hin|Hinfo]; [|right; exact Hinfo].
    exact (Hm _ _ _ E l Hin).
  - injection H as <- <-. exact (Hm _ _ _ E l Hl).
Qed.

Lemma log_info_only (m : string) : info_only_action (log (LogInfo m)).
Proof.
  intros s r s' H l Hl. injection H as <- <-. simpl in Hl.
  apply in_app_or in Hl. destruct Hl as [Hl|[<-|[]]]; eauto.
Qed.

Lemma copy_info_only (a b : string) : info_only_action (copy a b).
Proof.
  intros s r s' H l Hl. unfold copy in H. left.
  destruct (lookup a (files s)); [destruct (exists_dir _ _)|];
    injection H as <- <-; exact Hl.
Qed.

Lemma discard_remove_info_only (p : string) : info_only_action (discard (remove_file p)).
Proof.
  intros s r s' H l Hl. unfold discard, catch, remove_file in H. left.
  destruct (lookup p (files s)); [destruct (existsb _ _)|];
    injection H as <- <-; exact Hl.
Qed.

Lemma restore_obb_files_info_only (dir : string) (bs : list string) :
  info_only_action (restore_obb_files dir bs).
Proof.
  unfold restore_obb_files. apply bind_info_only.
  { intros s r s' H l Hl. injection H as <- <-. left. exact Hl. }
  intros _. apply bind_info_only.
  2:{ intros _ s r s' H l Hl. injection H as <- <-. left. exact Hl. }
  induction bs as [|b bs IH]; cbn [restore_obb_loop].
  - intros s r s' H l Hl. injection H as <- <-. left. exact Hl.
  - apply bind_info_only; [apply log_info_only|intros _].
    apply bind_info_only; [apply copy_info_only|intros _].
    apply bind_info_only; [apply discard_remove_info_only|intros _].
    exact IH.
Qed.

(** ** The reference [ModTag] codec *)

Lemma dec_enc_str (s : string) (r : bytes) :
  dec_str (enc_str s ++ r)%list = Some (s, r).
Proof.
  induction s as [|c s IH]; simpl; [reflexivity|].
  rewrite IH, Ascii.ascii_of_byte_of_ascii. reflexivity.
Qed.

Lemma dec_enc_opt (o : option string) (r : bytes) :
  dec_opt (enc_opt o ++ r)%list = Some (o, r).
Proof. destruct o as [s|]; simpl; [rewrite dec_enc_str|]; reflexivity. Qed.

Lemma dec_enc_tag (t : ModTag) : dec_tag (enc_tag t) = Some t.
Proof.
  destruct t as [pn pv mn mv]. unfold dec_tag, enc_tag. cbn [patcher_name patcher_version modloader_name modloader_version].
  rewrite dec_enc_str, dec_enc_opt, dec_enc_str.
  rewrite <- (app_nil_r (enc_opt mv)), dec_enc_opt. reflexivity.
Qed.

(** ** Container entries *)

Lemma lookup_app (n : string) (l1 l2 : list (string * bytes)) :
  lookup n (l1 ++ l2) = match lookup n l1 with Some b => Some b | None => lookup n l2 end.
Proof.
  induction l1 as [|[q c] l1 IH]; simpl; [reflexivity|].
  destruct (String.eqb n q); [reflexivity | exact IH].
Qed.

Lemma lookup_filter_same (n : string) (l : list (string * bytes)) :
  lookup n (filter (fun e => negb (String.eqb (fst e) n)) l) = None.
Proof.
  induction l as [|[q c] l IH]; simpl; [reflexivity|].
  destruct (String.eqb q n) eqn:E; simpl; [exact IH|].
  rewrite String.eqb_sym, E. exact IH.
Qed.

Lemma lookup_filter_other (n m : string) (l : list (string * bytes)) :
  n <> m ->
  lookup n (filter (fun e => negb (String.eqb (fst e) m)) l) = lookup n l.
Proof.
  intros Hnm. induction l as [|[q c] l IH]; simpl; [reflexivity|].
  destruct (String.eqb q m) eqn:E; simpl.
  - apply String.eqb_eq in E. subst q.
    apply String.eqb_neq in Hnm. rewrite Hnm. exact IH.
  - destruct (String.eqb n q); [reflexivity | exact IH].
Qed.

Lemma lookup_zip_write_same (z : ZipFile) (n : string) (d : bytes) :
  lookup n (zentries (zip_write z n d)) = Some d.
Proof.
  unfold zip_write, zip_delete. simpl. rewrite lookup_app, lookup_filter_same.
  simpl. rewrite String.eqb_refl. reflexivity.
Qed.

Lemma lookup_zip_write_other (z : ZipFile) (n m : string) (d : bytes) :
  n <> m -> lookup n (zentries (zip_write z m d)) = lookup n (zentries z).
Proof.
  intros Hnm. unfold zip_write, zip_delete. simpl.
  rewrite lookup_app, lookup_filter_other by exact Hnm.
  destruct (lookup n (zentries z)); [reflexivity|].
  simpl. apply String.eqb_neq in Hnm. rewrite Hnm. reflexivity.
Qed.

(** ** The APK mutation pipeline *)

(** C3.  On a package that opens as a container whose manifest can be
    rewritten (and with a readable unstripped libunity when one is given),
    [patch_apk_in_place] succeeds; the only change to the file system is
    the package file, rewritten as the container [zfinal] finalized and
    v2-signed with the key and certificate loaded from the bundled debug
    certificate, and [zfinal] holds the bundled libmain at
    lib/arm64-v8a/libmain.so and a tag at modded.json that decodes (by the
    round trip of the JSON codec) to a [ModTag] whose modloader is
    "Scotland2". *)
Theorem patch_apk_in_place_injects_tags_and_signs
    (modtag_to_json : ModTag -> bytes) (modtag_from_json : bytes -> option ModTag)
    (zip_parse : bytes -> option ZipFile) (manifest_mod : bytes -> Result bytes)
    (Cert Key : Type) (load_cert_and_priv_key : bytes -> Key * Cert)
    (save_and_sign_v2 : ZipFile -> Cert -> Key -> bytes)
    (DEBUG_CERT_PEM LIB_MAIN : bytes)
    (path : string) (libunity_path : option string) (s : St)
    (apk : bytes) (z0 : ZipFile) (manifest out : bytes) :
  (forall t, modtag_from_json (modtag_to_json t) = Some t) ->
  lookup path (files s) = Some apk ->
  zip_parse apk = Some z0 ->
  lookup "AndroidManifest.xml" (zentries z0) = Some manifest ->
  manifest_mod manifest = Ok out ->
  (forall p, libunity_path = Some p -> exists u, lookup p (files s) = Some u) ->
  exists zfinal s',
    patch_apk_in_place modtag_to_json zip_parse manifest_mod Cert Key
      load_cert_and_priv_key save_and_sign_v2 DEBUG_CERT_PEM LIB_MAIN
      path libunity_path s = (Ok tt, s') /\
    files s' = upsert path
                 (save_and_sign_v2 zfinal (snd (load_cert_and_priv_key DEBUG_CERT_PEM))
                    (fst (load_cert_and_priv_key DEBUG_CERT_PEM)))
                 (files s) /\
    lookup LIB_MAIN_PATH (zentries zfinal) = Some LIB_MAIN /\
    exists tag_data tag,
      lookup MOD_TAG_PATH (zentries zfinal) = Some tag_data /\
      modtag_from_json tag_data = Some tag /\
      modloader_name tag = "Scotland2".
Proof.
  intros Hrt Hpath Hparse Hman Hmod Hunity.
  unfold patch_apk_in_place, patch_manifest, add_modded_tag, lift, zip_read,
    bind, catch, with_context, read_file, ret, fail.
  rewrite Hpath, Hparse, Hman, Hmod.
  set (z3 := zip_write (zip_write (zip_delete (zip_write (zip_delete z0 "AndroidManifest.xml")
               "AndroidManifest.xml" out) LIB_MAIN_PATH) LIB_MAIN_PATH LIB_MAIN)
               MOD_TAG_PATH (modtag_to_json mbf_tag)).
  assert (Hz3 : lookup LIB_MAIN_PATH (zentries z3) = Some LIB_MAIN /\
                lookup MOD_TAG_PATH (zentries z3) = Some (modtag_to_json mbf_tag)).
  { split; unfold z3.
    - rewrite lookup_zip_write_other by discriminate.
      apply lookup_zip_write_same.
    - apply lookup_zip_write_same. }
  destruct libunity_path as [p|].
  - destruct (Hunity p eq_refl) as [u Hu]. rewrite Hu.
    exists (zip_write z3 LIB_UNITY_PATH u).
    eexists. split; [reflexivity|]. split; [reflexivity|].
    rewrite !lookup_zip_write_other by discriminate.
    split; [apply Hz3|].
    exists (modtag_to_json mbf_tag), mbf_tag.
    split; [apply Hz3|]. split; [apply Hrt | reflexivity].
  - exists z3. eexists. split; [reflexivity|]. split; [reflexivity|].
    split; [apply Hz3|].
    exists (modtag_to_json mbf_tag), mbf_tag.
    split; [apply Hz3|]. split; [apply Hrt | reflexivity].
Qed.

(** ** Detecting a modded package *)

Lemma lookup_zip_contains (z : ZipFile) (n : string) (b : bytes) :
  lookup n (zentries z) = Some b -> zip_contains z n = true.
Proof.
  unfold zip_contains. induction (zentries z) as [|[q c] l IH]; simpl;
    [discriminate|].
  destruct (String.eqb n q); [reflexivity|]. intros H. rewrite IH by exact H.
  apply orb_true_r.
Qed.

Lemma eq_ignore_ascii_case_length (a b : string) :
  eq_ignore_ascii_case a b = true -> String.length a = String.length b.
Proof.
  revert b. induction a as [|x a IH]; intros [|y b]; simpl; try discriminate.
  - reflexivity.
  - intros H. apply andb_prop in H. f_equal. apply IH. apply H.
Qed.

Lemma modloader_of_tag (modtag_from_json : bytes -> option ModTag) (apk : ZipFile)
    (s : St) (tag_data : bytes) (tag : ModTag) :
  lookup MOD_TAG_PATH (zentries apk) = Some tag_data ->
  modtag_from_json tag_data = Some tag ->
  get_modloader_installed modtag_from_json apk s =
  (Ok (Some (if eq_ignore_ascii_case (modloader_name tag) "QuestLoader"
             then QuestLoader
             else if eq_ignore_ascii_case (modloader_name tag) "Scotland2"
             then Scotland2
             else Unknown)), s).
Proof.
  intros Htag Hjson. unfold get_modloader_installed.
  rewrite (lookup_zip_contains _ _ _ Htag).
  unfold bind, with_context, zip_read. rewrite Htag. simpl. rewrite Hjson.
  reflexivity.
Qed.

(** C4.  With a readable tag that decodes, the modloader named in it is
    recognized case-insensitively ("QuestLoader", "Scotland2", anything else
    Unknown); without a tag entry, an entry whose name contains "modded"
    gives Unknown; with neither a tag entry nor such an entry, None. *)
Theorem get_modloader_installed_cases
    (modtag_from_json : bytes -> option ModTag) (apk : ZipFile) (s : St) :
  (forall tag_data tag,
     lookup MOD_TAG_PATH (zentries apk) = Some tag_data ->
     modtag_from_json tag_data = Some tag ->
     (eq_ignore_ascii_case (modloader_name tag) "QuestLoader" = true ->
      fst (get_modloader_installed modtag_from_json apk s) = Ok (Some QuestLoader)) /\
     (eq_ignore_ascii_case (modloader_name tag) "Scotland2" = true ->
      fst (get_modloader_installed modtag_from_json apk s) = Ok (Some Scotland2)) /\
     (eq_ignore_ascii_case (modloader_name tag) "QuestLoader" = false ->
      eq_ignore_ascii_case (modloader_name tag) "Scotland2" = false ->
      fst (get_modloader_installed modtag_from_json apk s) = Ok (Some Unknown))) /\
  (zip_contains apk MOD_TAG_PATH = false ->
   existsb (fun entry => contains entry "modded") (zip_entry_names apk) = true ->
   fst (get_modloader_installed modtag_from_json apk s) = Ok (Some Unknown)) /\
  (zip_contains apk MOD_TAG_PATH = false ->
   existsb (fun entry => contains entry "modded") (zip_entry_names apk) = false ->
   fst (get_modloader_installed modtag_from_json apk s) = Ok None).
Proof.
  split; [|split].
  - intros tag_data tag Htag Hjson.
    rewrite (modloader_of_tag _ _ _ _ _ Htag Hjson). simpl.
    split; [|split].
    + intros H. rewrite H. reflexivity.
    + intros H. rewrite H.
      destruct (eq_ignore_ascii_case (modloader_name tag) "QuestLoader") eqn:E;
        [|reflexivity].
      apply eq_ignore_ascii_case_length in H, E. rewrite H in E. discriminate E.
    + intros H1 H2. rewrite H1, H2. reflexivity.
  - intros Hno Hmod. unfold get_modloader_installed. rewrite Hno, Hmod. reflexivity.
  - intros Hno Hmod. unfold get_modloader_installed. rewrite Hno, Hmod. reflexivity.
Qed.

(** C10.  A readable tag that does not decode gives Unknown, not an error,
    after a warning is logged. *)
Theorem get_modloader_installed_malformed_tag
    (modtag_from_json : bytes -> option ModTag) (apk : ZipFile) (s : St)
    (tag_data : bytes) :
  lookup MOD_TAG_PATH (zentries apk) = Some tag_data ->
  modtag_from_json tag_data = None ->
  exists s',
    get_modloader_installed modtag_from_json apk s = (Ok (Some Unknown), s') /\
    logs s' = (logs s ++ [LogWarn "Mod tag was invalid JSON... Assuming unknown modloader"])%list.
Proof.
  intros Htag Hjson. unfold get_modloader_installed.
  rewrite (lookup_zip_contains _ _ _ Htag).
  unfold bind, with_context, zip_read. rewrite Htag. simpl. rewrite Hjson.
  eexists. split; reflexivity.
Qed.

(** ** Witnesses *)

(** C3 on a concrete package, without an unstripped libunity. *)
Lemma patch_apk_in_place_witness :
  exists zfinal s',
    sample_patch_apk sample_apk_state = (Ok tt, s') /\
    files s' = upsert tmp_apk (sample_sign zfinal tt tt) (files sample_apk_state) /\
    lookup LIB_MAIN_PATH (zentries zfinal) = Some (bytes_of_string "libmain") /\
    exists tag_data tag,
      lookup MOD_TAG_PATH (zentries zfinal) = Some tag_data /\
      dec_tag tag_data = Some tag /\
      modloader_name tag = "Scotland2".
Proof.
  apply (patch_apk_in_place_injects_tags_and_signs enc_tag dec_tag
           (fun _ => Some sample_apk_zip) (fun b => Ok b) unit unit
           (fun _ => (tt, tt)) sample_sign (bytes_of_string "pem")
           (bytes_of_string "libmain") tmp_apk None sample_apk_state
           (bytes_of_string "apk") sample_apk_zip
           (bytes_of_string "manifest") (bytes_of_string "manifest")).
  - exact dec_enc_tag.
  - reflexivity.
  - reflexivity.
  - reflexivity.
  - reflexivity.
  - intros p H. discriminate H.
Defined.

(** C4 on a package tagged with the modloader "questloader". *)
Lemma get_modloader_installed_witness :
  fst (get_modloader_installed dec_tag questloader_zip empty_state) = Ok (Some QuestLoader).
Proof.
  destruct (get_modloader_installed_cases dec_tag questloader_zip empty_state)
    as [Htag _].
  destruct (Htag (enc_tag questloader_tag) questloader_tag) as [Hql _].
  - reflexivity.
  - apply dec_enc_tag.
  - apply Hql. reflexivity.
Defined.

(** C10 on a package whose tag is the single character "{". *)
Lemma get_modloader_installed_malformed_witness :
  exists s',
    get_modloader_installed dec_tag broken_tag_zip empty_state = (Ok (Some Unknown), s') /\
    logs s' = (logs empty_state
               ++ [LogWarn "Mod tag was invalid JSON... Assuming unknown modloader"])%list.
Proof.
  apply (get_modloader_installed_malformed_tag dec_tag broken_tag_zip empty_state
           (bytes_of_string "{")).
  - reflexivity.
  - vm_compute. reflexivity.
Defined.

(** ** Paths *)

Lemma rsplit_once_app (c : ascii) (x y : string) :
  rsplit_once c (x ++ y) =
  match rsplit_once c y with
  | Some (b, a) => Some (x ++ b, a)
  | None => match rsplit_once c x with
            | Some (b, a) => Some (b, a ++ y)
            | None => None
            end
  end.
Proof.
  induction x as [|h x IH]; simpl.
  - destruct (rsplit_once c y) as [[b a]|]; reflexivity.
  - rewrite IH. destruct (rsplit_once c y) as [[b a]|]; [reflexivity|].
    destruct (rsplit_once c x) as [[b a]|]; [reflexivity|].
    destruct (Ascii.eqb h c); reflexivity.
Qed.

Lemma rsplit_once_after (c : ascii) (s b a : string) :
  rsplit_once c s = Some (b, a) -> rsplit_once c a = None.
Proof.
  revert b. induction s as [|h s IH]; intros b H; simpl in H; [discriminate|].
  destruct (rsplit_once c s) as [[b' a']|] eqn:E.
  - injection H as _ <-. exact (IH _ eq_refl).
  - destruct (Ascii.eqb h c); [|discriminate]. injection H as _ <-. exact E.
Qed.

Lemma rsplit_once_eq (c : ascii) (s b a : string) :
  rsplit_once c s = Some (b, a) -> s = b ++ String c a.
Proof.
  revert b. induction s as [|h s IH]; intros b H; simpl in H; [discriminate|].
  destruct (rsplit_once c s) as [[b' a']|] eqn:E.
  - injection H as <- <-. simpl. f_equal. apply IH. reflexivity.
  - destruct (Ascii.eqb h c) eqn:Hc; [|discriminate]. injection H as <- <-.
    apply Ascii.eqb_eq in Hc. subst. reflexivity.
Qed.

Lemma append_empty_r (s : string) : s ++ "" = s.
Proof. induction s as [|h s IH]; simpl; [reflexivity|]. rewrite IH. reflexivity. Qed.

Lemma append_cancel_l (d n n' : string) : d ++ n = d ++ n' -> n = n'.
Proof. induction d as [|h d IH]; simpl; [auto|]. intros H. injection H. exact IH. Qed.

Lemma rsplit_join (d n : string) :
  rsplit_once "/" n = None -> rsplit_once "/" (join d n) = Some (d, n).
Proof.
  intros Hn. unfold join. rewrite rsplit_once_app. simpl. rewrite Hn.
  simpl. rewrite append_empty_r. reflexivity.
Qed.

Lemma parent_join (d n : string) :
  rsplit_once "/" n = None -> parent (join d n) = d.
Proof. intros Hn. unfold parent. rewrite rsplit_join by exact Hn. reflexivity. Qed.

Lemma file_name_join (d n : string) :
  rsplit_once "/" n = None -> file_name (join d n) = n.
Proof. intros Hn. unfold file_name. rewrite rsplit_join by exact Hn. reflexivity. Qed.

Lemma file_name_no_slash (p : string) : rsplit_once "/" (file_name p) = None.
Proof.
  unfold file_name. destruct (rsplit_once "/" p) as [[b a]|] eqn:E.
  - exact (rsplit_once_after _ _ _ _ E).
  - exact E.
Qed.

(** Two paths with the same non-empty parent and the same file name are
    the same path. *)
Lemma path_eq_parent_file_name (p q : string) :
  parent p <> "" -> parent p = parent q -> file_name p = file_name q -> p = q.
Proof.
  unfold parent, file_name.
  destruct (rsplit_once "/" p) as [[b a]|] eqn:Ep; [|intros H; contradiction H; reflexivity].
  destruct (rsplit_once "/" q) as [[b' a']|] eqn:Eq.
  - intros _ <- <-. rewrite (rsplit_once_eq _ _ _ _ Ep), (rsplit_once_eq _ _ _ _ Eq).
    reflexivity.
  - intros H He _. contradiction (H He).
Qed.

Lemma join_inj (d n n' : string) : join d n = join d n' -> n = n'.
Proof.
  unfold join. intros H. apply append_cancel_l in H. simpl in H. injection H. auto.
Qed.

(** ** Backing up OBB files *)

Lemma lookup_in (p : string) (l : list (string * bytes)) (b : bytes) :
  lookup p l = Some b -> In p (map fst l).
Proof.
  induction l as [|[q c] l IH]; simpl; [discriminate|].
  destruct (String.eqb p q) eqn:E.
  - intros _. left. symmetry. apply String.eqb_eq. exact E.
  - intros H. right. exact (IH H).
Qed.

Lemma save_obbs_loop_no_backup_dir (bak : string) (es : list (Result string))
    (paths : list string) (s : St) :
  exists_dir bak s = false ->
  save_obbs_loop bak es paths s =
  ((if existsb (fun e => match e with Ok p => is_obb p | Err _ => false end) es
    then Err (IoError NotFound) else Ok paths), s).
Proof.
  intros Hbak. revert paths. induction es as [|[p|e] es IH]; intros paths; simpl.
  - reflexivity.
  - destruct (is_obb p) eqn:Hp; simpl.
    + unfold bind, copy. rewrite parent_join by apply file_name_no_slash.
      rewrite Hbak. destruct (lookup p (files s)); reflexivity.
    + apply IH.
  - apply IH.
Qed.

(** Without an existing backup directory, [save_obbs] changes nothing: it
    fails at the first OBB file it lists (the copy needs the directory) and
    so never deletes an OBB it has not copied; it fails as soon as the
    directory holds a listable OBB file. *)
Theorem save_obbs_without_backup_dir (obb_dir obb_backup_path : string) (s : St) :
  exists_dir obb_backup_path s = false ->
  snd (save_obbs obb_dir obb_backup_path s) = s /\
  (forall p b, lookup p (files s) = Some b -> parent p = obb_dir -> is_obb p = true ->
   ~ In p (bad_entries s) ->
   fst (save_obbs obb_dir obb_backup_path s) = Err (IoError NotFound)).
Proof.
  intros Hbak. unfold save_obbs, bind, read_dir.
  destruct (exists_dir obb_dir s) eqn:Hdir; [|split; reflexivity].
  rewrite save_obbs_loop_no_backup_dir by exact Hbak.
  split; [reflexivity|].
  intros p b Hp Hpar Hobb Hbad.
  replace (existsb _ _) with true; [reflexivity|]. symmetry.
  apply existsb_exists. exists (Ok p). split.
  - apply in_map_iff. exists p. split.
    + destruct (existsb (String.eqb p) (bad_entries s)) eqn:E; [|reflexivity].
      apply existsb_exists in E. destruct E as [q [Hq Heq]].
      apply String.eqb_eq in Heq. subst q. contradiction.
    + apply filter_In. split; [exact (lookup_in _ _ _ Hp)|].
      apply String.eqb_eq. exact Hpar.
  - exact Hobb.
Qed.

Lemma lookup_upsert_same (p : string) (b : bytes) (l : list (string * bytes)) :
  lookup p (upsert p b l) = Some b.
Proof.
  induction l as [|[q c] l IH]; simpl.
  - rewrite String.eqb_refl. reflexivity.
  - destruct (String.eqb p q) eqn:E; simpl.
    + rewrite E. reflexivity.
    + rewrite E. exact IH.
Qed.

Lemma lookup_upsert_other (p q : string) (b : bytes) (l : list (string * bytes)) :
  q <> p -> lookup q (upsert p b l) = lookup q l.
Proof.
  intros Hqp. induction l as [|[r c] l IH]; simpl.
  - apply String.eqb_neq in Hqp. rewrite Hqp. reflexivity.
  - destruct (String.eqb p r) eqn:E; simpl.
    + apply String.eqb_eq in E. subst r. apply String.eqb_neq in Hqp. rewrite Hqp.
      reflexivity.
    + destruct (String.eqb q r); [reflexivity | exact IH].
Qed.

Lemma lookup_remove_other (p q : string) (l : list (string * bytes)) :
  q <> p -> lookup q (remove p l) = lookup q l.
Proof.
  intros Hqp. induction l as [|[r c] l IH]; simpl; [reflexivity|].
  destruct (String.eqb p r) eqn:E; simpl.
  - apply String.eqb_eq in E. subst r. apply String.eqb_neq in Hqp. rewrite Hqp.
    reflexivity.
  - destruct (String.eqb q r); [reflexivity | exact IH].
Qed.

Lemma lookup_notin (p : string) (l : list (string * bytes)) :
  ~ In p (map fst l) -> lookup p l = None.
Proof.
  intros H. destruct (lookup p l) eqn:E; [|reflexivity].
  contradiction (H (lookup_in _ _ _ E)).
Qed.

Lemma lookup_remove_same (p : string) (l : list (string * bytes)) :
  NoDup (map fst l) -> lookup p (remove p l) = None.
Proof.
  induction l as [|[q c] l IH]; simpl; intros Hnd; [reflexivity|].
  inversion Hnd as [|x xs Hq Hnd']; subst.
  destruct (String.eqb p q) eqn:E.
  - apply String.eqb_eq in E. subst q. apply lookup_notin. exact Hq.
  - simpl. rewrite E. exact (IH Hnd').
Qed.

Lemma in_upsert_keys (x p : string) (b : bytes) (l : list (string * bytes)) :
  In x (map fst (upsert p b l)) -> x = p \/ In x (map fst l).
Proof.
  induction l as [|[q c] l IH]; simpl.
  - intros [H|[]]. left. symmetry. exact H.
  - destruct (String.eqb p q); simpl; intros [H|H]; auto.
    destruct (IH H); auto.
Qed.

Lemma in_remove_keys (x p : string) (l : list (string * bytes)) :
  In x (map fst (remove p l)) -> In x (map fst l).
Proof.
  induction l as [|[q c] l IH]; simpl; [auto|].
  destruct (String.eqb p q); simpl; intros H; [right; exact H|].
  destruct H as [H|H]; auto.
Qed.

Lemma nodup_upsert (p : string) (b : bytes) (l : list (string * bytes)) :
  NoDup (map fst l) -> NoDup (map fst (upsert p b l)).
Proof.
  induction l as [|[q c] l IH]; simpl; intros Hnd.
  - constructor; [intros []|constructor].
  - inversion Hnd as [|x xs Hq Hnd']; subst.
    destruct (String.eqb p q) eqn:E; simpl; [exact Hnd|].
    constructor; [|exact (IH Hnd')].
    intros Hin. destruct (in_upsert_keys _ _ _ _ Hin) as [Heq|Hin'].
    + subst q. rewrite String.eqb_refl in E. discriminate.
    + contradiction.
Qed.

Lemma nodup_remove (p : string) (l : list (string * bytes)) :
  NoDup (map fst l) -> NoDup (map fst (remove p l)).
Proof.
  induction l as [|[q c] l IH]; simpl; intros Hnd; [exact Hnd|].
  inversion Hnd as [|x xs Hq Hnd']; subst.
  destruct (String.eqb p q); simpl; [exact Hnd'|].
  constructor; [|exact (IH Hnd')].
  intros Hin. exact (Hq (in_remove_keys _ _ _ Hin)).
Qed.

Lemma in_ok_cons (p q : string) (es : list (Result string)) :
  In (Ok q) (Ok p :: es) -> q = p \/ In (Ok q) es.
Proof. simpl. intros [H|H]; [left; injection H; auto|right; exact H]. Qed.

Lemma in_ok_err (q : string) (e : Error) (es : list (Result string)) :
  In (Ok q) (Err e :: es) -> In (Ok q) es.
Proof. simpl. intros [H|H]; [discriminate|exact H]. Qed.

Lemma in_ok_entries (q : string) (es : list (Result string)) :
  In (Ok q) es -> In q (ok_entries es).
Proof.
  induction es as [|[p|e] es IH]; simpl; [auto| |].
  - intros [H|H]; [left; injection H; auto|right; exact (IH H)].
  - intros [H|H]; [discriminate|exact (IH H)].
Qed.

Section SaveObbsLoop.

Variables obb_dir bak : string.
Hypothesis Hdirs : bak <> obb_dir.
Hypothesis Hobb_dir : obb_dir <> "".

Lemma backup_ne_source (p q : string) :
  parent p = obb_dir -> p <> join bak (file_name q).
Proof.
  intros Hp Heq. apply Hdirs. rewrite <- Hp, Heq.
  symmetry. apply parent_join, file_name_no_slash.
Qed.

(** The loop moves every listed OBB file into [bak] under its file name,
    returns them in listing order, and touches no other file. *)
Lemma save_obbs_loop_moves (es : list (Result string)) :
  forall (paths : list string) (s0 : St),
  NoDup (ok_entries es) ->
  NoDup (map fst (files s0)) ->
  exists_dir bak s0 = true ->
  (forall p, In (Ok p) es -> parent p = obb_dir /\
     (is_obb p = true -> lookup p (files s0) <> None /\ ~ In p (undeletable s0))) ->
  exists s1,
    save_obbs_loop bak es paths s0 = (Ok (paths ++ filter is_obb (ok_entries es))%list, s1) /\
    dirs s1 = dirs s0 /\ undeletable s1 = undeletable s0 /\ logs s1 = logs s0 /\
    NoDup (map fst (files s1)) /\
    (forall p, In (Ok p) es -> is_obb p = true ->
       lookup p (files s1) = None /\
       lookup (join bak (file_name p)) (files s1) = lookup p (files s0)) /\
    (forall q, (forall p, In (Ok p) es -> is_obb p = true ->
                 q <> p /\ q <> join bak (file_name p)) ->
       lookup q (files s1) = lookup q (files s0)).
Proof.
  induction es as [|[p|e] es IH]; intros paths s0 Hnd Hfnd Hbak Hes; simpl.
  - exists s0. rewrite app_nil_r.
    refine (conj eq_refl (conj eq_refl (conj eq_refl (conj eq_refl (conj Hfnd (conj _ _)))))).
    + intros q [].
    + intros q _. reflexivity.
  - simpl in Hnd. inversion Hnd as [|x xs Hpn Hnd']; subst.
    destruct (Hes p (or_introl eq_refl)) as [Hpar Hp].
    assert (Hes' : forall q, In (Ok q) es -> parent q = obb_dir /\
                     (is_obb q = true -> lookup q (files s0) <> None /\
                                         ~ In q (undeletable s0)))
      by (intros q Hq; exact (Hes q (or_intror Hq))).
    assert (Hqp : forall q, In (Ok q) es -> q <> p).
    { intros q Hq ->. exact (Hpn (in_ok_entries _ _ Hq)). }
    destruct (is_obb p) eqn:Hobb.
    + destruct (Hp eq_refl) as [Hlk Hund].
      destruct (lookup p (files s0)) as [b|] eqn:Eb; [|contradiction Hlk; reflexivity].
      set (t := join bak (file_name p)).
      assert (Ht : parent t = bak) by apply parent_join, file_name_no_slash.
      assert (Hpt : p <> t) by (apply backup_ne_source; exact Hpar).
      set (s0b := mkSt (remove p (upsert t b (files s0))) (dirs s0) (undeletable s0)
                       (bad_entries s0) (logs s0) (responses s0) (requests s0)).
      assert (Hstep : (copy p t ;;; remove_file p ;;;
                       save_obbs_loop bak es (paths ++ [p])%list) s0 =
                      save_obbs_loop bak es (paths ++ [p])%list s0b).
      { unfold bind at 1, copy. rewrite Eb, Ht, Hbak. simpl.
        unfold bind, remove_file. simpl.
        rewrite (lookup_upsert_other t p b _ Hpt), Eb.
        destruct (existsb (String.eqb p) (undeletable s0)) eqn:Eu.
        - apply existsb_exists in Eu. destruct Eu as [x [Hx Hxe]].
          apply String.eqb_eq in Hxe. subst x. contradiction.
        - reflexivity. }
      rewrite Hstep.
      assert (Hfnd0 : NoDup (map fst (files s0b)))
        by (apply nodup_remove, nodup_upsert, Hfnd).
      assert (Hlk0 : forall q, q <> p -> q <> t ->
                       lookup q (files s0b) = lookup q (files s0)).
      { intros q H1 H2. simpl.
        rewrite (lookup_remove_other _ _ _ H1), (lookup_upsert_other _ _ _ _ H2).
        reflexivity. }
      destruct (IH (paths ++ [p])%list s0b Hnd' Hfnd0 Hbak) as
        (s1 & Hrun & Hd & Hu & Hl & Hnd1 & Hmv & Hkeep).
      { intros q Hq. destruct (Hes' q Hq) as [Hqpar Hqo]. split; [exact Hqpar|].
        intros Hqobb. destruct (Hqo Hqobb) as [Hql Hqu]. split; [|exact Hqu].
        rewrite Hlk0; [exact Hql|exact (Hqp q Hq)|].
        apply backup_ne_source. exact Hqpar. }
      exists s1. rewrite Hrun, <- app_assoc. simpl. try rewrite Hobb.
      refine (conj eq_refl (conj Hd (conj Hu (conj Hl (conj Hnd1 (conj _ _)))))).
      * intros q Hq Hqobb. destruct (in_ok_cons _ _ _ Hq) as [->|Hq'].
        -- split.
           ++ rewrite Hkeep; [apply lookup_remove_same, nodup_upsert, Hfnd|].
              intros r Hr _. split; [exact (not_eq_sym (Hqp r Hr))|].
              apply backup_ne_source. exact Hpar.
           ++ fold t. rewrite Hkeep.
              ** simpl. rewrite (lookup_remove_other _ _ _ (not_eq_sym Hpt)).
                 rewrite lookup_upsert_same. exact (eq_sym Eb).
              ** intros r Hr Hrobb. destruct (Hes' r Hr) as [Hrpar _]. split.
                 --- intros ->. exact (Hdirs (eq_trans (eq_sym Ht) Hrpar)).
                 --- intros Htr. apply (Hqp r Hr). symmetry.
                     apply path_eq_parent_file_name.
                     +++ rewrite Hpar. exact Hobb_dir.
                     +++ rewrite Hpar. exact (eq_sym Hrpar).
                     +++ exact (join_inj _ _ _ Htr).
        -- destruct (Hmv q Hq' Hqobb) as [H1 H2]. split; [exact H1|].
           rewrite H2. apply Hlk0; [exact (Hqp q Hq')|].
           apply backup_ne_source. exact (proj1 (Hes' q Hq')).
      * intros q Hq. rewrite Hkeep.
        -- apply Hlk0; [exact (proj1 (Hq p (or_introl eq_refl) Hobb))|].
           exact (proj2 (Hq p (or_introl eq_refl) Hobb)).
        -- intros r Hr Hrobb. exact (Hq r (or_intror Hr) Hrobb).
    + destruct (IH paths s0 Hnd' Hfnd Hbak Hes') as
        (s1 & Hrun & Hd & Hu & Hl & Hnd1 & Hmv & Hkeep).
      exists s1. rewrite Hrun. simpl. try rewrite Hobb.
      refine (conj eq_refl (conj Hd (conj Hu (conj Hl (conj Hnd1 (conj _ _)))))).
      * intros q Hq Hqobb. destruct (in_ok_cons _ _ _ Hq) as [->|Hq'].
        -- rewrite Hobb in Hqobb. discriminate.
        -- exact (Hmv q Hq' Hqobb).
      * intros q Hq. apply Hkeep. intros r Hr. exact (Hq r (or_intror Hr)).
  - assert (Hes' : forall q, In (Ok q) es -> parent q = obb_dir /\
                     (is_obb q = true -> lookup q (files s0) <> None /\
                                         ~ In q (undeletable s0)))
      by (intros q Hq; exact (Hes q (or_intror Hq))).
    destruct (IH paths s0 Hnd Hfnd Hbak Hes') as
      (s1 & Hrun & Hd & Hu & Hl & Hnd1 & Hmv & Hkeep).
    exists s1. rewrite Hrun.
    refine (conj eq_refl (conj Hd (conj Hu (conj Hl (conj Hnd1 (conj _ _)))))).
    * intros q Hq. exact (Hmv q (in_ok_err _ _ _ Hq)).
    * intros q Hq. apply Hkeep. intros r Hr. exact (Hq r (or_intror Hr)).
Qed.

End SaveObbsLoop.

Lemma lookup_in_keys (p : string) (l : list (string * bytes)) :
  In p (map fst l) -> lookup p l <> None.
Proof.
  induction l as [|[q c] l IH]; simpl; [intros []|].
  intros [->|H]; [rewrite String.eqb_refl; discriminate|].
  destruct (String.eqb p q); [discriminate|exact (IH H)].
Qed.

Lemma ok_entries_listing (bad L : list string) (e : Error) :
  ok_entries (map (fun p => if existsb (String.eqb p) bad then Err e else Ok p) L) =
  filter (fun p => negb (existsb (String.eqb p) bad)) L.
Proof.
  induction L as [|p L IH]; simpl; [reflexivity|].
  destruct (existsb (String.eqb p) bad); simpl; rewrite IH; reflexivity.
Qed.

Lemma in_ok_listing (bad L : list string) (e : Error) (p : string) :
  In (Ok p) (map (fun p => if existsb (String.eqb p) bad then Err e else Ok p) L) ->
  In p L.
Proof.
  intros H. apply in_map_iff in H. destruct H as [q [Hq HqL]].
  destruct (existsb (String.eqb q) bad); [discriminate|]. injection Hq as ->. exact HqL.
Qed.

Lemma not_bad (bad : list string) (p : string) :
  ~ In p bad -> existsb (String.eqb p) bad = false.
Proof.
  intros H. destruct (existsb (String.eqb p) bad) eqn:E; [|reflexivity].
  apply existsb_exists in E. destruct E as [q [Hq Heq]].
  apply String.eqb_eq in Heq. subst q. contradiction.
Qed.

Lemma filter_obb_listing (bad L : list string) :
  (forall p, In p L -> is_obb p = true -> ~ In p bad) ->
  filter is_obb (filter (fun p => negb (existsb (String.eqb p) bad)) L) = filter is_obb L.
Proof.
  induction L as [|p L IH]; simpl; intros H; [reflexivity|].
  destruct (is_obb p) eqn:Hobb.
  - rewrite (not_bad _ _ (H p (or_introl eq_refl) Hobb)). simpl. rewrite Hobb.
    f_equal. apply IH. intros q Hq. exact (H q (or_intror Hq)).
  - destruct (negb (existsb (String.eqb p) bad)); simpl; [rewrite Hobb|];
      apply IH; intros q Hq; exact (H q (or_intror Hq)).
Qed.

(** With both directories present and every OBB file of [obb_dir] listable
    and deletable, [save_obbs] returns the OBB files of the directory in
    directory order, each has been moved into the backup directory under its
    file name, and every other file is as before. *)
Theorem save_obbs_moves_obbs (obb_dir bak : string) (s : St) :
  bak <> obb_dir -> obb_dir <> "" ->
  exists_dir obb_dir s = true -> exists_dir bak s = true ->
  NoDup (map fst (files s)) ->
  (forall p, In p (map fst (files s)) -> parent p = obb_dir -> is_obb p = true ->
     ~ In p (undeletable s) /\ ~ In p (bad_entries s)) ->
  exists s1,
    save_obbs obb_dir bak s =
      (Ok (filter is_obb (filter (fun p => String.eqb (parent p) obb_dir)
                                 (map fst (files s)))), s1) /\
    (forall p, In p (filter is_obb (filter (fun p => String.eqb (parent p) obb_dir)
                                           (map fst (files s)))) ->
       lookup p (files s1) = None /\
       lookup (join bak (file_name p)) (files s1) = lookup p (files s)) /\
    (forall q, ~ In q (filter is_obb (filter (fun p => String.eqb (parent p) obb_dir)
                                             (map fst (files s)))) ->
       (forall p, In p (filter is_obb (filter (fun p => String.eqb (parent p) obb_dir)
                                              (map fst (files s)))) ->
          q <> join bak (file_name p)) ->
       lookup q (files s1) = lookup q (files s)).
Proof.
  intros Hne Hnonempty Hdir Hbak Hnd Hok.
  set (L := filter (fun p => String.eqb (parent p) obb_dir) (map fst (files s))).
  assert (HL : forall p, In p L -> In p (map fst (files s)) /\ parent p = obb_dir).
  { intros p Hp. apply filter_In in Hp. destruct Hp as [Hp Hpar].
    split; [exact Hp|apply String.eqb_eq; exact Hpar]. }
  unfold save_obbs, bind, read_dir. rewrite Hdir. fold L.
  set (es := map (fun p => if existsb (String.eqb p) (bad_entries s)
                           then Err (IoError PermissionDenied) else Ok p) L).
  assert (Hes_L : forall p, In (Ok p) es -> In p L) by (intros p; apply in_ok_listing).
  assert (Hok_es : ok_entries es =
                   filter (fun p => negb (existsb (String.eqb p) (bad_entries s))) L)
    by apply ok_entries_listing.
  assert (Hfilter : filter is_obb (ok_entries es) = filter is_obb L).
  { rewrite Hok_es. apply filter_obb_listing. intros p Hp Hobb.
    destruct (HL p Hp) as [Hk Hpar]. exact (proj2 (Hok p Hk Hpar Hobb)). }
  destruct (save_obbs_loop_moves obb_dir bak Hne Hnonempty es [] s) as
    (s1 & Hrun & _ & _ & _ & _ & Hmv & Hkeep).
  - rewrite Hok_es. apply NoDup_filter. apply NoDup_filter. exact Hnd.
  - exact Hnd.
  - exact Hbak.
  - intros p Hp. destruct (HL p (Hes_L p Hp)) as [Hk Hpar]. split; [exact Hpar|].
    intros Hobb. split; [exact (lookup_in_keys _ _ Hk)|].
    exact (proj1 (Hok p Hk Hpar Hobb)).
  - exists s1. rewrite Hrun, Hfilter. simpl.
    assert (Hin : forall p, In p (filter is_obb L) -> In (Ok p) es /\ is_obb p = true).
    { intros p Hp. apply filter_In in Hp. destruct Hp as [HpL Hobb].
      split; [|exact Hobb]. destruct (HL p HpL) as [Hk Hpar].
      apply in_map_iff. exists p. split; [|exact HpL].
      rewrite (not_bad _ _ (proj2 (Hok p Hk Hpar Hobb))). reflexivity. }
    refine (conj eq_refl (conj _ _)).
    + intros p Hp. destruct (Hin p Hp) as [Hp1 Hp2]. exact (Hmv p Hp1 Hp2).
    + intros q Hq Hb. apply Hkeep. intros p Hp Hobb.
      assert (HpO : In p (filter is_obb L)).
      { apply filter_In. split; [exact (Hes_L p Hp)|exact Hobb]. }
      split; [intros ->; contradiction|exact (Hb p HpO)].
Qed.

(** ** Patching with a diff *)

(** A diff whose payload file is missing is reported as such, before the
    patch format or the source file is looked at, and nothing changes. *)
Theorem apply_diff_missing_payload (Patch : Type) (bspatch_new : bytes -> option Patch)
    (bspatch_apply : Patch -> bytes -> option bytes)
    (from_path to_path : string) (diff : Diff) (diffs_path : string) (s : St) :
  lookup (join diffs_path (file_name_of diff)) (files s) = None ->
  apply_diff Patch bspatch_new bspatch_apply from_path to_path diff diffs_path s =
  (Err (Context "Diff could not be opened. Was it downloaded" (IoError NotFound)), s).
Proof.
  intros H. unfold apply_diff, bind, with_context, read_file_vec, bind, read_file.
  rewrite H. reflexivity.
Qed.

(** [apply_diff] succeeds only for a diff whose expected checksum is 0, and
    then writes the patch parsed from an empty payload applied to an empty
    source: the contents of the payload and source files never matter. *)
Theorem apply_diff_success_ignores_contents (Patch : Type)
    (bspatch_new : bytes -> option Patch) (bspatch_apply : Patch -> bytes -> option bytes)
    (from_path to_path : string) (diff : Diff) (diffs_path : string) (s s' : St) :
  apply_diff Patch bspatch_new bspatch_apply from_path to_path diff diffs_path s = (Ok tt, s') ->
  file_crc diff = 0%Z /\
  exists p out, bspatch_new [] = Some p /\ bspatch_apply p [] = Some out /\
    files s' = upsert to_path out (upsert to_path [] (files s)) /\
    logs s' = (logs s ++ [LogInfo "Verifying installation is unmodified"])%list.
Proof.
  intros H.
  unfold apply_diff, bind, with_context, read_file_vec, bind, read_file in H.
  destruct (lookup (join diffs_path (file_name_of diff)) (files s)); [|discriminate H].
  simpl in H. destruct (bspatch_new []) as [p|] eqn:Hp; [|discriminate H].
  unfold ret in H. destruct (lookup from_path (files s)); [|discriminate H].
  unfold log in H. rewrite crc32_empty in H.
  destruct (Z.eqb 0 (file_crc diff)) eqn:Hcrc; simpl in H; [|discriminate H].
  split; [symmetry; apply Z.eqb_eq; exact Hcrc|].
  unfold create_truncate in H. cbn [fst snd dirs files] in H.
  destruct (exists_dir (parent to_path) _); [|discriminate H].
  destruct (bspatch_apply p []) as [out|] eqn:Ho; [|discriminate H].
  exists p, out. unfold set_files, write_all, set_files, ret in H. simpl in H.
  injection H as <-. simpl. repeat split; assumption || reflexivity.
Qed.

(** ** Downloading a diff *)

Lemma upsert_twice (p : string) (b c : bytes) (l : list (string * bytes)) :
  upsert p b (upsert p c l) = upsert p b l.
Proof.
  induction l as [|[q d] l IH]; simpl.
  - rewrite String.eqb_refl. reflexivity.
  - destruct (String.eqb p q) eqn:E; simpl; rewrite E; [reflexivity|].
    rewrite IH. reflexivity.
Qed.

(** Without its target directory, [download_diff] fails before it sends any
    request, and changes nothing. *)
Theorem download_diff_missing_dir (diff : Diff) (to_dir : string) (s : St) :
  rsplit_once "/" (diff_name diff) = None ->
  exists_dir to_dir s = false ->
  download_diff diff to_dir s = (Err (IoError NotFound), s).
Proof.
  intros Hn Hd. unfold download_diff, bind, create_truncate.
  rewrite parent_join by exact Hn. rewrite Hd. reflexivity.
Qed.

(** A failed request leaves the output file created and empty: the file is
    truncated before the request is sent. *)
Theorem download_diff_failure_leaves_empty_file (diff : Diff) (to_dir : string)
    (s : St) (msg : string) (rest : list response) :
  rsplit_once "/" (diff_name diff) = None ->
  exists_dir to_dir s = true ->
  responses s = RespFail msg :: rest ->
  download_diff diff to_dir s =
  (Err (NetError msg),
   mkSt (upsert (join to_dir (diff_name diff)) [] (files s)) (dirs s) (undeletable s)
        (bad_entries s) (logs s) rest (requests s ++ [diff_name diff])%list).
Proof.
  intros Hn Hd Hr. unfold download_diff, bind, create_truncate.
  rewrite parent_join by exact Hn. rewrite Hd. simpl.
  unfold get_diff_reader. simpl. rewrite Hr. reflexivity.
Qed.


Lemma download_diff_requests (diff : Diff) (to_dir : string) (s : St) :
  exists k, k <= 1 /\
    requests (snd (download_diff diff to_dir s)) = (requests s ++ repeat (diff_name diff) k)%list.
Proof.
  unfold download_diff, bind, create_truncate.
  destruct (exists_dir (parent (join to_dir (diff_name diff))) s).
  - unfold set_files. simpl. unfold get_diff_reader. simpl.
    exists 1. split; [lia|].
    destruct (responses s) as [|[m|len body] rs]; simpl; try reflexivity.
    destruct len; reflexivity.
  - exists 0. split; [lia|]. simpl. rewrite app_nil_r. reflexivity.
Qed.

Lemma retry_loop_requests (diff : Diff) (to_dir : string) (fuel : nat) :
  forall attempt s, exists k, k <= fuel /\
    requests (snd (retry_loop diff to_dir fuel attempt s)) =
    (requests s ++ repeat (diff_name diff) k)%list.
Proof.
  induction fuel as [|fuel IH]; intros attempt s; simpl.
  - exists 0. split; [lia|]. simpl. rewrite app_nil_r. reflexivity.
  - unfold catch.
    destruct (download_diff_requests diff to_dir s) as [k1 [Hk1 Hr1]].
    destruct (download_diff diff to_dir s) as [[a|e] s1] eqn:E; simpl in Hr1.
    + exists k1. split; [lia|]. exact Hr1.
    + destruct (Nat.eqb attempt DIFF_DOWNLOAD_ATTEMPTS).
      * exists k1. split; [lia|]. exact Hr1.
      * unfold bind, log. simpl.
        destruct (IH (S attempt)
                    (mkSt (files s1) (dirs s1) (undeletable s1) (bad_entries s1)
                          (logs s1 ++ [LogError (retry_msg diff) e]) (responses s1)
                          (requests s1))) as [k2 [Hk2 Hr2]].
        exists (k1 + k2). split; [lia|]. rewrite Hr2. simpl. rewrite Hr1.
        rewrite repeat_app, app_assoc. reflexivity.
Qed.

(** [download_diff_retry] sends at most three requests, each for the
    diff's own name, whatever the network answers. *)
Theorem download_diff_retry_at_most_three_requests (diff : Diff) (to_dir : string) (s : St) :
  exists k, k <= DIFF_DOWNLOAD_ATTEMPTS /\
    requests (snd (download_diff_retry diff to_dir s)) =
    (requests s ++ repeat (diff_name diff) k)%list.
Proof. apply retry_loop_requests. Qed.

(** Without the target directory every attempt fails at once: the retry
    logs two failures, returns the file-system error and sends no request. *)
Theorem download_diff_retry_missing_dir (diff : Diff) (to_dir : string) (s : St) :
  rsplit_once "/" (diff_name diff) = None ->
  exists_dir to_dir s = false ->
  download_diff_retry diff to_dir s =
  (Err (IoError NotFound),
   mkSt (files s) (dirs s) (undeletable s) (bad_entries s)
        (logs s ++ [LogError (retry_msg diff) (IoError NotFound);
                    LogError (retry_msg diff) (IoError NotFound)])%list
        (responses s) (requests s)).
Proof.
  intros Hn Hd.
  assert (Hno : forall s0, exists_dir to_dir s0 = false ->
                  download_diff diff to_dir s0 = (Err (IoError NotFound), s0)).
  { intros s0 H0. unfold download_diff, bind, create_truncate.
    rewrite parent_join by exact Hn. rewrite H0. reflexivity. }
  unfold download_diff_retry. simpl. unfold catch.
  rewrite (Hno _ Hd). simpl.
  unfold bind, log. simpl.
  rewrite (Hno
             (mkSt (files s) (dirs s) (undeletable s) (bad_entries s)
                   (logs s ++ [LogError (retry_msg diff) (IoError NotFound)])
                   (responses s) (requests s)) Hd). simpl.
  rewrite (Hno
             (mkSt (files s) (dirs s) (undeletable s) (bad_entries s)
                   ((logs s ++ [LogError (retry_msg diff) (IoError NotFound)])
                      ++ [LogError (retry_msg diff) (IoError NotFound)])
                   (responses s) (requests s)) Hd). simpl.
  rewrite <- app_assoc. reflexivity.
Qed.

(** ** Installing the modloader *)




(** ** Reinstalling the app *)

(** [reinstall_modded_app] looks only at whether each command could be
    started: whatever their exit codes, it succeeds when all three start. *)
Theorem reinstall_modded_app_ignores_exit_codes (APK_ID : string)
    (command_output : string -> list string -> M nat) (temp_apk_path : string) (s : St) :
  (forall prog args s0, exists code s1, command_output prog args s0 = (Ok code, s1)) ->
  fst (reinstall_modded_app APK_ID command_output temp_apk_path s) = Ok tt.
Proof.
  intros Hrun. unfold reinstall_modded_app, bind, with_context, log, ret.
  cbn [fst snd].
  destruct (Hrun "pm" ["uninstall"; APK_ID]
              (mkSt (files s) (dirs s) (undeletable s) (bad_entries s)
                    (logs s ++ [LogInfo "Reinstalling modded app"]) (responses s)
                    (requests s))) as (c1 & s1 & H1).
  rewrite H1.
  destruct (Hrun "pm" ["install"; temp_apk_path] s1) as (c2 & s2 & H2). rewrite H2.
  destruct (Hrun "appops" ["set"; "--uid"; APK_ID; "MANAGE_EXTERNAL_STORAGE"; "allow"]
              (mkSt (files s2) (dirs s2) (undeletable s2) (bad_entries s2)
                    (logs s2 ++ [LogInfo "Granting external storage permission"])
                    (responses s2) (requests s2))) as (c3 & s3 & H3).
  rewrite H3. reflexivity.
Qed.

(** ** Saving libunity *)

(** When the repository has an unstripped libunity, [save_libunity] stores
    it as libunity.so in the temporary directory and returns that path,
    provided the directory exists; otherwise it fails with the error of
    creating the file. *)
Theorem save_libunity_stores_stream (APK_ID : string)
    (get_libunity_stream : string -> string -> M (option bytes))
    (temp_path : string) (app_info : AppInfo) (s s1 : St) (lib : bytes) :
  get_libunity_stream APK_ID (app_version app_info) s = (Ok (Some lib), s1) ->
  save_libunity APK_ID get_libunity_stream temp_path app_info s =
  if exists_dir temp_path s1
  then (Ok (Some (join temp_path "libunity.so")),
        mkSt (upsert (join temp_path "libunity.so") lib (files s1)) (dirs s1)
             (undeletable s1) (bad_entries s1) (logs s1) (responses s1) (requests s1))
  else (Err (IoError NotFound), s1).
Proof.
  intros H. unfold save_libunity, bind. rewrite H. unfold create_truncate.
  rewrite parent_join by reflexivity.
  destruct (exists_dir temp_path s1); [|reflexivity].
  unfold set_files, write_all, set_files, ret. simpl. rewrite upsert_twice. reflexivity.
Qed.

(** ** Errors of the APK pipeline *)


(** ** Patching, then detecting *)


(** ** Modding the installed app *)

Lemma string_length_app (a b : string) :
  String.length (a ++ b) = String.length a + String.length b.
Proof. induction a as [|h a IH]; simpl; [reflexivity|]. rewrite IH. reflexivity. Qed.

Lemma join_ne_dir (d n : string) : join d n <> d.
Proof.
  unfold join. intros H. apply (f_equal String.length) in H.
  rewrite !string_length_app in H. simpl in H. lia.
Qed.

Lemma exists_dir_create_dir_all (d d' : string) (s : St) :
  exists_dir d' (snd (create_dir_all d s)) = orb (String.eqb d' d) (exists_dir d' s).
Proof.
  unfold create_dir_all, exists_dir. cbn [snd dirs].
  destruct (existsb (String.eqb d) (dirs s)) eqn:E.
  - destruct (String.eqb d' d) eqn:F; simpl; [|reflexivity].
    apply String.eqb_eq in F. subst d'. exact E.
  - rewrite existsb_app. simpl. rewrite orb_false_r. apply orb_comm.
Qed.

Lemma lookup_upsert_some (p t : string) (b c : bytes) (l : list (string * bytes)) :
  lookup p l = Some b -> exists b', lookup p (upsert t c l) = Some b'.
Proof.
  intros H. destruct (String.eqb p t) eqn:E.
  - apply String.eqb_eq in E. subst t. exists c. apply lookup_upsert_same.
  - apply String.eqb_neq in E. exists b. rewrite lookup_upsert_other by exact E. exact H.
Qed.

(** [save_obbs] with no backup directory fails, with nothing changed, as
    soon as its directory holds a listable OBB file. *)
Lemma save_obbs_fails_without_backup_dir (obb_dir bak p : string) (b : bytes) (s : St) :
  exists_dir bak s = false ->
  lookup p (files s) = Some b -> parent p = obb_dir -> is_obb p = true ->
  ~ In p (bad_entries s) ->
  save_obbs obb_dir bak s = (Err (IoError NotFound), s).
Proof.
  intros Hbak Hp Hpar Hobb Hbad. unfold save_obbs, bind, read_dir.
  destruct (exists_dir obb_dir s) eqn:Hdir; [|reflexivity].
  rewrite save_obbs_loop_no_backup_dir by exact Hbak.
  replace (existsb _ _) with true; [reflexivity|]. symmetry.
  apply existsb_exists. exists (Ok p). split; [|exact Hobb].
  apply in_map_iff. exists p. split.
  - rewrite (not_bad _ _ Hbad). reflexivity.
  - apply filter_In. split; [exact (lookup_in _ _ _ Hp)|].
    apply String.eqb_eq. exact Hpar.
Qed.

(** [mod_current_apk] creates [TEMP_PATH] but never the [obbs] directory
    inside it, into which [save_obbs] copies: unless that directory is
    already there, modding an app that has an OBB file stops with a
    file-not-found error at the OBB backup, after only the APK has been
    copied to the temporary directory.  No OBB file is moved, the package is
    not patched and no command is run. *)
Theorem mod_current_apk_fails_without_obb_backup_dir
    (APK_ID TEMP_PATH APP_OBB_PATH APP_DATA_PATH : string)
    (command_output : string -> list string -> M nat)
    (get_libunity_stream : string -> string -> M (option bytes))
    (modtag_to_json : ModTag -> bytes) (zip_parse : bytes -> option ZipFile)
    (manifest_mod : bytes -> Result bytes) (Cert Key : Type)
    (load_cert_and_priv_key : bytes -> Key * Cert)
    (save_and_sign_v2 : ZipFile -> Cert -> Key -> bytes)
    (DEBUG_CERT_PEM LIB_MAIN : bytes) (app_info : AppInfo) (s : St)
    (apk : bytes) (obb : string) (obb_content : bytes) :
  (forall s0, get_libunity_stream APK_ID (app_version app_info) s0 = (Ok None, s0)) ->
  lookup (app_path app_info) (files s) = Some apk ->
  exists_dir (join TEMP_PATH "obbs") s = false ->
  lookup obb (files s) = Some obb_content ->
  parent obb = APP_OBB_PATH -> is_obb obb = true -> ~ In obb (bad_entries s) ->
  exists s',
    mod_current_apk APK_ID TEMP_PATH APP_OBB_PATH APP_DATA_PATH command_output
      get_libunity_stream modtag_to_json zip_parse manifest_mod Cert Key
      load_cert_and_priv_key save_and_sign_v2 DEBUG_CERT_PEM LIB_MAIN app_info s
    = (Err (IoError NotFound), s') /\
    files s' = upsert (join TEMP_PATH "mbf-tmp.apk") apk (files s).
Proof.
  intros Hstream Happ Hbak Hobb Hpar Hisobb Hbad.
  set (s_a := snd (create_dir_all TEMP_PATH s)).
  assert (Htemp : exists_dir TEMP_PATH s_a = true).
  { unfold s_a. rewrite exists_dir_create_dir_all, String.eqb_refl. reflexivity. }
  assert (Hbak_a : exists_dir (join TEMP_PATH "obbs") s_a = false).
  { unfold s_a. rewrite exists_dir_create_dir_all, Hbak.
    rewrite (proj2 (String.eqb_neq _ _) (join_ne_dir _ _)).
    reflexivity. }
  unfold mod_current_apk.
  rewrite (bind_ok _ _ s tt s_a) by reflexivity.
  set (s_b := snd (log (LogInfo "Downloading unstripped libunity.so (this could take a minute)") s_a)).
  rewrite (bind_ok _ _ s_a tt s_b) by reflexivity.
  rewrite (bind_ok _ _ s_b None s_b)
    by (unfold with_context, save_libunity, bind; rewrite Hstream; reflexivity).
  set (s_c := snd (log (LogInfo "Copying APK to temporary location") s_b)).
  rewrite (bind_ok _ _ s_b tt s_c) by reflexivity.
  set (s_d := mkSt (upsert (join TEMP_PATH "mbf-tmp.apk") apk (files s_c)) (dirs s_c)
                   (undeletable s_c) (bad_entries s_c) (logs s_c) (responses s_c)
                   (requests s_c)).
  rewrite (bind_ok _ _ s_c (List.length apk) s_d).
  2:{ unfold with_context, copy. change (files s_c) with (files s). rewrite Happ.
      rewrite parent_join by reflexivity.
      change (exists_dir TEMP_PATH s_c) with (exists_dir TEMP_PATH s_a). rewrite Htemp.
      reflexivity. }
  set (s_e := snd (log (LogInfo "Saving OBB files") s_d)).
  rewrite (bind_ok _ _ s_d tt s_e) by reflexivity.
  destruct (lookup_upsert_some obb (join TEMP_PATH "mbf-tmp.apk") obb_content apk
              (files s) Hobb) as [b' Hb'].
  rewrite (bind_err _ _ s_e (IoError NotFound) s_e).
  - exists s_e. split; reflexivity.
  - apply (save_obbs_fails_without_backup_dir _ _ obb b').
    + exact Hbak_a.
    + exact Hb'.
    + exact Hpar.
    + exact Hisobb.
    + exact Hbad.
Qed.

(** ** Restoring backed-up OBB files *)

Lemma discard_remove_file (p : string) (s : St) :
  exists fs, discard (remove_file p) s =
             (Ok tt, mkSt fs (dirs s) (undeletable s) (bad_entries s) (logs s)
                          (responses s) (requests s)) /\
             (fs = files s \/ fs = remove p (files s)).
Proof.
  unfold discard, catch, remove_file, ret.
  destruct (lookup p (files s)).
  - destruct (existsb (String.eqb p) (undeletable s)).
    + exists (files s). destruct s; split; [reflexivity|left; reflexivity].
    + exists (remove p (files s)). split; [reflexivity|right; reflexivity].
  - exists (files s). destruct s; split; [reflexivity|left; reflexivity].
Qed.

Section RestoreObbLoop.

Variable restore_dir : string.

(** Restoring backups with distinct file names, none of them in the target
    directory, copies each one to the target directory under its file name;
    only the targets and the backups themselves can change. *)
Lemma restore_obb_loop_restores (bs : list string) :
  forall s0,
  NoDup (map file_name bs) ->
  NoDup (map fst (files s0)) ->
  exists_dir restore_dir s0 = true ->
  (forall b, In b bs -> lookup b (files s0) <> None /\ parent b <> restore_dir) ->
  exists s1,
    restore_obb_loop restore_dir bs s0 = (Ok tt, s1) /\
    NoDup (map fst (files s1)) /\
    (forall b, In b bs ->
       lookup (join restore_dir (file_name b)) (files s1) = lookup b (files s0)) /\
    (forall q, (forall b, In b bs -> q <> b /\ q <> join restore_dir (file_name b)) ->
       lookup q (files s1) = lookup q (files s0)).
Proof.
  induction bs as [|b bs IH]; intros s0 Hnames Hnd Hdir Hbs; simpl.
  - exists s0. refine (conj eq_refl (conj Hnd (conj _ _))).
    + intros b [].
    + intros q _. reflexivity.
  - inversion Hnames as [|x xs Hbn Hnames']; subst.
    destruct (Hbs b (or_introl eq_refl)) as [Hbl Hbpar].
    destruct (lookup b (files s0)) as [c|] eqn:Ec; [|contradiction Hbl; reflexivity].
    set (t := join restore_dir (file_name b)).
    assert (Ht : parent t = restore_dir) by apply parent_join, file_name_no_slash.
    assert (Hbt : b <> t) by (intros Heq; apply Hbpar; rewrite Heq; exact Ht).
    assert (Hneq : forall b', In b' bs -> b' <> b /\ b' <> t /\
                                          join restore_dir (file_name b') <> t).
    { intros b' Hb'. split; [|split].
      - intros ->. apply Hbn. apply in_map. exact Hb'.
      - intros Heq. apply (proj2 (Hbs b' (or_intror Hb'))). rewrite Heq. exact Ht.
      - intros Heq. apply Hbn. apply join_inj in Heq. rewrite <- Heq.
        apply in_map. exact Hb'. }
    set (s_l := snd (log (LogInfo ("Restoring " ++ b)) s0)).
    rewrite (bind_ok _ _ s0 tt s_l) by reflexivity.
    set (s_c := mkSt (upsert t c (files s0)) (dirs s0) (undeletable s0) (bad_entries s0)
                     (logs s_l) (responses s0) (requests s0)).
    rewrite (bind_ok _ _ s_l (List.length c) s_c).
    2:{ unfold copy. change (files s_l) with (files s0). rewrite Ec.
        fold t. rewrite Ht. change (exists_dir restore_dir s_l) with (exists_dir restore_dir s0).
        rewrite Hdir. reflexivity. }
    destruct (discard_remove_file b s_c) as (fs & Hdisc & Hfs).
    rewrite (bind_ok _ _ s_c tt _ Hdisc).
    set (s_d := mkSt fs (dirs s_c) (undeletable s_c) (bad_entries s_c) (logs s_c)
                     (responses s_c) (requests s_c)).
    assert (Hnd_d : NoDup (map fst (files s_d))).
    { unfold s_d. cbn [files]. destruct Hfs as [-> | ->].
      - apply nodup_upsert. exact Hnd.
      - apply nodup_remove, nodup_upsert. exact Hnd. }
    assert (Hlk_d : forall q, q <> b -> lookup q (files s_d) = lookup q (files s_c)).
    { intros q Hq. unfold s_d. cbn [files]. destruct Hfs as [-> | ->]; [reflexivity|].
      apply lookup_remove_other. exact Hq. }
    destruct (IH s_d Hnames' Hnd_d Hdir) as (s1 & Hrun & Hnd1 & Hres & Hkeep).
    { intros b' Hb'. destruct (Hneq b' Hb') as (H1 & H2 & _).
      split; [|exact (proj2 (Hbs b' (or_intror Hb')))].
      rewrite (Hlk_d b' H1). cbn [files s_c]. rewrite lookup_upsert_other by exact H2.
      exact (proj1 (Hbs b' (or_intror Hb'))). }
    exists s1. refine (conj Hrun (conj Hnd1 (conj _ _))).
    + intros b' [<-|Hb'].
      * fold t. rewrite Hkeep.
        -- rewrite (Hlk_d t (not_eq_sym Hbt)). cbn [files s_c].
           rewrite lookup_upsert_same. exact (eq_sym Ec).
        -- intros b'' Hb''. destruct (Hneq b'' Hb'') as (_ & H2 & H3).
           split; [exact (not_eq_sym H2)|exact (not_eq_sym H3)].
      * rewrite (Hres b' Hb'). destruct (Hneq b' Hb') as (H1 & H2 & _).
        rewrite (Hlk_d b' H1). cbn [files s_c].
        rewrite lookup_upsert_other by exact H2. reflexivity.
    + intros q Hq. destruct (Hq b (or_introl eq_refl)) as [Hqb Hqt].
      rewrite Hkeep by (intros b' Hb'; exact (Hq b' (or_intror Hb'))).
      rewrite (Hlk_d q Hqb). cbn [files s_c].
      apply lookup_upsert_other. exact Hqt.
Qed.

End RestoreObbLoop.

(** Given the paths of real backups, with distinct file names and outside
    the target directory, [restore_obb_files] succeeds, creating the target
    directory if needed, and each backup's content ends up in the target
    directory under its file name; no file other than the targets and the
    backups changes. *)
Theorem restore_obb_files_restores_backups (restore_dir : string) (obb_backups : list string)
    (s : St) :
  NoDup (map file_name obb_backups) ->
  NoDup (map fst (files s)) ->
  (forall b, In b obb_backups -> lookup b (files s) <> None /\ parent b <> restore_dir) ->
  exists s',
    restore_obb_files restore_dir obb_backups s = (Ok tt, s') /\
    (forall b, In b obb_backups ->
       lookup (join restore_dir (file_name b)) (files s') = lookup b (files s)) /\
    (forall q, (forall b, In b obb_backups -> q <> b /\ q <> join restore_dir (file_name b)) ->
       lookup q (files s') = lookup q (files s)).
Proof.
  intros Hnames Hnd Hbs. unfold restore_obb_files.
  set (s_a := snd (create_dir_all restore_dir s)).
  rewrite (bind_ok _ _ s tt s_a) by reflexivity.
  assert (Hdir : exists_dir restore_dir s_a = true).
  { unfold s_a. rewrite exists_dir_create_dir_all, String.eqb_refl. reflexivity. }
  destruct (restore_obb_loop_restores restore_dir obb_backups s_a Hnames Hnd Hdir Hbs)
    as (s1 & Hrun & _ & Hres & Hkeep).
  rewrite (bind_ok _ _ s_a tt s1 Hrun).
  exists s1. refine (conj eq_refl (conj Hres Hkeep)).
Qed.

(** ** The reference container codec *)





(** ** Witnesses of the further properties *)

Lemma save_obbs_without_backup_dir_witness :
  exists_dir "/bak" obb_nobak_state = false /\
  snd (save_obbs "/obb" "/bak" obb_nobak_state) = obb_nobak_state /\
  fst (save_obbs "/obb" "/bak" obb_nobak_state) = Err (IoError NotFound).
Proof.
  destruct (save_obbs_without_backup_dir "/obb" "/bak" obb_nobak_state) as [H1 H2].
  - reflexivity.
  - split; [reflexivity|]. split; [exact H1|].
    apply (H2 "/obb/main.obb" obb_data).
    + reflexivity.
    + vm_compute. reflexivity.
    + vm_compute. reflexivity.
    + intros [].
Defined.

Lemma save_obbs_moves_obbs_witness :
  exists s1,
    save_obbs "/obb" "/bak" obb_state = (Ok ["/obb/main.obb"], s1) /\
    lookup "/obb/main.obb" (files s1) = None /\
    lookup "/bak/main.obb" (files s1) = Some obb_data /\
    lookup "/obb/dlc" (files s1) = Some (bytes_of_string "dlc").
Proof.
  destruct (save_obbs_moves_obbs "/obb" "/bak" obb_state) as (s1 & H1 & H2 & H3).
  - discriminate.
  - discriminate.
  - reflexivity.
  - reflexivity.
  - constructor; [simpl; intros [H|[]]; discriminate|].
    constructor; [intros []|constructor].
  - intros p Hp Hpar Hobb. simpl in Hp. destruct Hp as [<-|[<-|[]]].
    + split; intros [].
    + vm_compute in Hobb. discriminate Hobb.
  - exists s1. split; [exact H1|].
    destruct (H2 "/obb/main.obb") as [H4 H5]; [vm_compute; left; reflexivity|].
    split; [exact H4|]. split.
    + vm_compute in H5. exact H5.
    + apply H3.
      * vm_compute. intros [H|[]]; discriminate H.
      * intros p Hp. vm_compute in Hp. destruct Hp as [<-|[]]. vm_compute. discriminate.
Defined.

Lemma apply_diff_missing_payload_witness :
  lookup (join "/diffs" (file_name_of split_diff)) (files fetch_state) = None /\
  apply_diff unit (fun _ => Some tt) (fun _ b => Some b) "/obb/main.obb"
    "/obb/main.obb.new" split_diff "/diffs" fetch_state =
  (Err (Context "Diff could not be opened. Was it downloaded" (IoError NotFound)), fetch_state).
Proof.
  split; [reflexivity|].
  apply apply_diff_missing_payload. reflexivity.
Defined.

Lemma apply_diff_success_ignores_contents_witness :
  exists s',
    apply_diff unit (fun _ => Some tt) (fun _ _ => Some (bytes_of_string "patched"))
      "/apk/base.apk" "/out/base.apk" (mkDiff "base.apk.diff" "base.apk.diff" 0) "/diffs"
      (apply_state sample_payload) = (Ok tt, s') /\
    files s' = upsert "/out/base.apk" (bytes_of_string "patched")
                 (upsert "/out/base.apk" [] (files (apply_state sample_payload))).
Proof.
  exists (snd (apply_diff unit (fun _ => Some tt) (fun _ _ => Some (bytes_of_string "patched"))
                 "/apk/base.apk" "/out/base.apk" (mkDiff "base.apk.diff" "base.apk.diff" 0)
                 "/diffs" (apply_state sample_payload))).
  assert (H : apply_diff unit (fun _ => Some tt) (fun _ _ => Some (bytes_of_string "patched"))
                "/apk/base.apk" "/out/base.apk" (mkDiff "base.apk.diff" "base.apk.diff" 0)
                "/diffs" (apply_state sample_payload) =
              (Ok tt, snd (apply_diff unit (fun _ => Some tt)
                             (fun _ _ => Some (bytes_of_string "patched"))
                             "/apk/base.apk" "/out/base.apk"
                             (mkDiff "base.apk.diff" "base.apk.diff" 0)
                             "/diffs" (apply_state sample_payload))))
    by (vm_compute; reflexivity).
  split; [exact H|].
  destruct (apply_diff_success_ignores_contents _ _ _ _ _ _ _ _ _ H)
    as [_ (p & out & _ & Ho & Hf & _)].
  rewrite Hf. injection Ho as <-. reflexivity.
Defined.

Lemma download_diff_missing_dir_witness :
  rsplit_once "/" (diff_name split_diff) = None /\
  exists_dir "/diffs" empty_state = false /\
  download_diff split_diff "/diffs" empty_state = (Err (IoError NotFound), empty_state).
Proof.
  split; [reflexivity|]. split; [reflexivity|].
  apply download_diff_missing_dir; reflexivity.
Defined.

Lemma download_diff_failure_leaves_empty_file_witness :
  download_diff split_diff "/diffs" (retry_state [RespFail "timeout"]) =
  (Err (NetError "timeout"),
   mkSt (upsert (join "/diffs" (diff_name split_diff)) [] (files (retry_state [RespFail "timeout"])))
        ["/diffs"] [] [] [] [] [diff_name split_diff]).
Proof. apply download_diff_failure_leaves_empty_file; reflexivity. Defined.


Lemma download_diff_retry_missing_dir_witness :
  download_diff_retry split_diff "/diffs" empty_state =
  (Err (IoError NotFound),
   mkSt [] [] [] []
        ([] ++ [LogError (retry_msg split_diff) (IoError NotFound);
                LogError (retry_msg split_diff) (IoError NotFound)])%list [] []).
Proof. apply download_diff_retry_missing_dir; reflexivity. Defined.

(** Every command exits with the failure status 1. *)
Lemma reinstall_modded_app_ignores_exit_codes_witness :
  fst (reinstall_modded_app "com.beatgames.beatsaber" (fun _ _ s0 => (Ok 1, s0))
         tmp_apk empty_state) = Ok tt.
Proof.
  apply reinstall_modded_app_ignores_exit_codes.
  intros prog args s0. exists 1, s0. reflexivity.
Defined.

Lemma save_libunity_stores_stream_witness :
  save_libunity "com.beatgames.beatsaber"
    (fun _ _ s0 => (Ok (Some (bytes_of_string "libunity")), s0))
    "/data/local/tmp/mbf" mod_app libunity_state =
  if exists_dir "/data/local/tmp/mbf" libunity_state
  then (Ok (Some (join "/data/local/tmp/mbf" "libunity.so")),
        mkSt (upsert (join "/data/local/tmp/mbf" "libunity.so") (bytes_of_string "libunity")
                (files libunity_state)) (dirs libunity_state)
             (undeletable libunity_state) (bad_entries libunity_state) (logs libunity_state)
             (responses libunity_state) (requests libunity_state))
  else (Err (IoError NotFound), libunity_state).
Proof. apply save_libunity_stores_stream. reflexivity. Defined.



Lemma mod_current_apk_fails_without_obb_backup_dir_witness :
  exists s',
    mod_current_apk "com.beatgames.beatsaber" "/data/local/tmp/mbf" "/obb" "/data/data"
      (fun _ _ s0 => (Ok 0, s0)) (fun _ _ s0 => (Ok None, s0)) enc_tag (fun _ => None)
      (fun b => Ok b) unit unit (fun _ => (tt, tt)) sample_sign (bytes_of_string "pem")
      (bytes_of_string "libmain") mod_app mod_state
    = (Err (IoError NotFound), s') /\
    files s' = upsert (join "/data/local/tmp/mbf" "mbf-tmp.apk") (bytes_of_string "apk")
                 (files mod_state).
Proof.
  apply (mod_current_apk_fails_without_obb_backup_dir _ _ _ _ _ _ _ _ _ _ _ _ _ _ _ _
           mod_state (bytes_of_string "apk") "/obb/main.obb" obb_data).
  - intros s0. reflexivity.
  - reflexivity.
  - reflexivity.
  - reflexivity.
  - vm_compute. reflexivity.
  - vm_compute. reflexivity.
  - intros [].
Defined.

Lemma restore_obb_files_restores_backups_witness :
  exists s',
    restore_obb_files "/obb" ["/bak/main.obb"] restore_state = (Ok tt, s') /\
    lookup "/obb/main.obb" (files s') = Some obb_data.
Proof.
  destruct (restore_obb_files_restores_backups "/obb" ["/bak/main.obb"] restore_state)
    as (s' & H1 & H2 & _).
  - constructor; [intros []|constructor].
  - constructor; [intros []|constructor].
  - intros b [<-|[]]. split; [discriminate|vm_compute; discriminate].
  - exists s'. split; [exact H1|]. exact (H2 "/bak/main.obb" (or_introl eq_refl)).
Defined.
